(** * PMID retrieval and concept filtering (query.py)

    A shallow embedding of [query.py]: the PubMed [esearch] collector
    ([esearch_all_pmids]), the PubTator concept filter
    ([pubtator_has_concept]), the shared [requests] session ([session]) and
    the command line driver ([main]), together with the properties of the
    specification that concern them.

    Conventions of the embedding.
    - Python [int] is [Z]; [str] is [string], a sequence of characters with
      code points below 256.
    - A [set] is a [gset]; the order in which a [set] is iterated over is
      the one of the process ([set_order]), of which only this is known: it
      enumerates the set without repetition.
    - A duration is a number of milliseconds.
    - JSON bodies are modelled at the shape the code reads them with: a key
      read with [d[k]] is required ([KeyError] when absent), a key read with
      [d.get(k, default)] is optional.
    - Network, file system and clock are effects: a computation threads the
      state of the outside world, may raise, and emits the events it
      performs. *)

From Stdlib Require Import ZArith String Ascii List Lia Sorted Permutation.
From stdpp Require Import base tactics option list numbers strings pretty gmap sorting.

Local Open Scope Z_scope.

(** ** Exceptions *)

(** The classes of [requests.exceptions] that can reach [main], and the
    built-in exceptions the code can raise. [HTTPError] is the one raised by
    [raise_for_status]; the constructors of [request_exception] are the
    other subclasses of [RequestException] the transport raises, among them
    the [JSONDecodeError] of [r.json()] (requests 2.27 and later). *)
Inductive request_exception :=
| ConnectTimeout
| ReadTimeout
| ConnectionError
| RetryError
| TooManyRedirects
| JSONDecodeError.

Inductive exn :=
| HTTPError (status : Z)
| RequestException (kind : request_exception)
| KeyError (key : string)
| ValueError
| TypeError
| OSError
| SystemExit (code : Z).

Inductive result (A : Type) :=
| Ok (a : A)
| Raise (e : exn).
Arguments Ok {A} a.
Arguments Raise {A} e.

Global Instance result_ret : MRet result := @Ok.
Global Instance result_bind : MBind result := λ A B f r,
  match r with
  | Ok a => f a
  | Raise e => Raise e
  end.

(** ** Python built-ins used by the program *)

Module Py.

(** [str.isspace] below 256: TAB, LF, VT, FF, CR, FS, GS, RS, US, SPACE,
    NEL (133) and NO-BREAK SPACE (160). *)
Definition isspace (c : ascii) : bool :=
  let n := nat_of_ascii c in
  ((9 <=? n)%nat && (n <=? 13)%nat) || ((28 <=? n)%nat && (n <=? 32)%nat)
  || (n =? 133)%nat || (n =? 160)%nat.

(** The characters [space] removed at the left end. *)
Fixpoint trim_left (space : ascii → bool) (s : string) : string :=
  match s with
  | String c s' => if space c then trim_left space s' else s
  | EmptyString => EmptyString
  end.

(** At the right end: a character is kept when it is not one of [space] or
    when something remains after it once the tail has been trimmed. *)
Fixpoint trim_right (space : ascii → bool) (s : string) : string :=
  match s with
  | String c s' =>
      match trim_right space s' with
      | EmptyString => if space c then EmptyString else String c EmptyString
      | t => String c t
      end
  | EmptyString => EmptyString
  end.

Definition lstrip : string → string := trim_left isspace.
Definition rstrip : string → string := trim_right isspace.

(** [s.strip()] *)
Definition strip (s : string) : string := rstrip (lstrip s).

(** Truth value of a [str]: non-empty. *)
Definition truthy (s : string) : bool :=
  match s with
  | EmptyString => false
  | String _ _ => true
  end.

(** [s.split(sep)] for a one-character separator: always at least one
    piece. [split_go] carries the piece being read, reversed. *)
Fixpoint split_go (sep : ascii) (cur : string) (s : string) : list string :=
  match s with
  | EmptyString => [String.rev cur]
  | String c s' =>
      if Ascii.eqb c sep then String.rev cur :: split_go sep EmptyString s'
      else split_go sep (String c cur) s'
  end.

Definition split (sep : ascii) (s : string) : list string :=
  split_go sep EmptyString s.

(** [sep.join(l)] *)
Fixpoint join (sep : string) (l : list string) : string :=
  match l with
  | [] => ""
  | [x] => x
  | x :: l' => x +:+ sep +:+ join sep l'
  end.

(** [len(l)] *)
Definition len {A} (l : list A) : Z := Z.of_nat (length l).

Definition is_digit (c : ascii) : bool :=
  let n := nat_of_ascii c in (48 <=? n)%nat && (n <=? 57)%nat.

Definition digit_value (c : ascii) : Z := Z.of_nat (nat_of_ascii c) - 48.

(** Decimal digits, where a single underscore may separate two digits.
    [after_digit] tells whether the previous character was a digit. *)
Fixpoint parse_digits (acc : Z) (after_digit : bool) (s : string) : option Z :=
  match s with
  | EmptyString => if after_digit then Some acc else None
  | String c s' =>
      if is_digit c then parse_digits (10 * acc + digit_value c) true s'
      else if Ascii.eqb c "_" && after_digit then parse_digits acc false s'
      else None
  end.

(** The white space [int] skips at both ends: the one of C below 128 (TAB,
    LF, VT, FF, CR, SPACE), the one of [str.isspace] from there on. *)
Definition int_space (c : ascii) : bool :=
  let n := nat_of_ascii c in
  ((9 <=? n)%nat && (n <=? 13)%nat) || (n =? 32)%nat || (n =? 133)%nat || (n =? 160)%nat.

(** The number of digits of a literal, and the most [int] converts
    ([sys.get_int_max_str_digits()], by default). *)
Fixpoint count_digits (s : string) : nat :=
  match s with
  | EmptyString => 0
  | String c s' => if is_digit c then S (count_digits s') else count_digits s'
  end.

Definition MAX_STR_DIGITS : nat := 4300.

(** [int(s)] for a [str] in base 10: surrounding white space, an optional
    sign, then at most [MAX_STR_DIGITS] digits. [ValueError] otherwise. *)
Definition int (s : string) : result Z :=
  let '(sign, digits) :=
    match trim_right int_space (trim_left int_space s) with
    | String "+" s' => (1, s')
    | String "-" s' => (-1, s')
    | s' => (1, s')
    end in
  match parse_digits 0 false digits with
  | Some z => if (MAX_STR_DIGITS <? count_digits digits)%nat then Raise ValueError else Ok (sign * z)
  | None => Raise ValueError
  end.

(** [range(start, stop, step)] as the list it iterates over;
    [ValueError] for a zero step. *)
Definition range (start stop step : Z) : result (list Z) :=
  if step =? 0 then Raise ValueError
  else
    let n :=
      if 0 <? step then (stop - start + step - 1) / step
      else (start - stop - step - 1) / (- step) in
    Ok (map (λ i : nat, start + Z.of_nat i * step) (seq 0 (Z.to_nat n))).

(** An index of a slice, clipped to the list as Python does. *)
Definition clip (n i : Z) : Z :=
  if i <? 0 then Z.max 0 (i + n) else Z.min i n.

(** [l[lo:hi]] *)
Definition slice {A} (l : list A) (lo hi : Z) : list A :=
  let a := clip (len l) lo in
  let b := clip (len l) hi in
  take (Z.to_nat (b - a)) (drop (Z.to_nat a) l).

(** Keys of the elements, computed from left to right; the first key that
    raises ends the call. *)
Fixpoint keys {A} (key : A → result Z) (l : list A) : result (list (Z * A)) :=
  match l with
  | [] => Ok []
  | x :: l' =>
      k ← key x;
      kl ← keys key l';
      Ok ((k, x) :: kl)
  end.

(** Insertion before the first element whose key is not smaller. *)
Fixpoint insert {A} (kx : Z * A) (l : list (Z * A)) : list (Z * A) :=
  match l with
  | [] => [kx]
  | ky :: l' => if kx.1 <=? ky.1 then kx :: l else ky :: insert kx l'
  end.

(** [sorted(l, key=key)]: a stable sort by key. *)
Definition sorted {A} (key : A → result Z) (l : list A) : result (list A) :=
  kl ← keys key l;
  Ok ((foldr insert [] kl).*2).

End Py.

(** ** Requests, responses and the events of a run *)

Inductive method := GET | HEAD | POST | PUT | DELETE.

Global Instance method_eq_dec : EqDecision method.
Proof. solve_decision. Defined.

(** A value of the [params] dictionary of a request. *)
Inductive param :=
| PStr (s : string)
| PInt (z : Z).

Record Request := {
  rq_method : method;
  rq_url : string;
  rq_params : list (string * param);
  rq_headers : list (string * string);
  rq_timeout : Z }.

(** An annotation record; the program only counts them. *)
Inductive Annotation := annotation_record.

(** [p.get("annotations", [])] *)
Record Passage := { p_annotations : option (list Annotation) }.

(** [doc.get("id")] and [doc.get("passages", [])] *)
Record Document := {
  d_id : option string;
  d_passages : option (list Passage) }.

(** [er["count"]] and [er.get("idlist", [])] *)
Record ESearchResult := {
  er_count : option string;
  er_idlist : option (list string) }.

(** The JSON object of a body: [body["esearchresult"]] and
    [body.get("documents", [])]. *)
Record Body := {
  b_esearchresult : option ESearchResult;
  b_documents : option (list Document) }.

(** A response as the program and the transport see it. [json] is [None]
    when the body is not JSON; [retry_after] is the delay a Retry-After
    header asks for, [location] the URL a Location header leads to. *)
Record Response := {
  status_code : Z;
  retry_after : option Z;
  location : option string;
  json : option Body }.

(** What one attempt on the wire can end with besides a response. *)
Inductive net_error :=
| ConnectTimeoutError
| NewConnectionError
| ReadTimeoutError
| ProtocolError.

Inductive event :=
| EvCall (rq : Request)            (* the program calls [s.get] *)
| EvRedirect (rq : Request)        (* the session follows a redirect *)
| EvSend (rq : Request)            (* the adapter puts one attempt on the wire *)
| EvWait (ms : Z)                  (* the adapter waits before the next attempt *)
| EvReply (r : Response)           (* [s.get] hands a response back *)
| EvSleep (ms : Z)                 (* [time.sleep] of the program *)
| EvPrint (line : string)          (* [print] to standard output *)
| EvStderr (text : string)         (* [sys.stderr.write] *)
| EvWrite (path : string) (text : string).   (* [f.write] on the output file *)

(** ** The outside world *)

(** [wire] is one HTTP attempt, [open_w] tells whether a file can be opened
    for writing, [str_exn] is the text [str(e)] of an exception, and
    [set_order] is the order in which the process iterates over a [set]: it
    depends on the hashes of the elements, which for strings change from one
    process to the next. *)
Class Env := {
  World : Type;
  wire : World → Request → World * (net_error + Response);
  open_w : World → string → World * bool;
  str_exn : exn → string;
  set_order : World → ∀ A `{Countable A}, gset A → list A;
  set_order_perm : ∀ w A `{Countable A} (X : gset A), set_order w A X ≡ₚ elements X }.

(** ** Computations *)

Definition IO `{Env} (A : Type) : Type := World → World * list event * result A.

Global Instance IO_ret `{Env} : MRet IO := λ A a w, (w, [], Ok a).

Global Instance IO_bind `{Env} : MBind IO := λ A B f m w,
  match m w with
  | (w1, ev1, Ok a) => let '(w2, ev2, r) := f a w1 in (w2, ev1 ++ ev2, r)
  | (w1, ev1, Raise e) => (w1, ev1, Raise e)
  end.

Definition raise `{Env} {A} (e : exn) : IO A := λ w, (w, [], Raise e).

Definition lift `{Env} {A} (r : result A) : IO A := λ w, (w, [], r).

Definition emit `{Env} (ev : event) : IO unit := λ w, (w, [ev], Ok tt).

(** [try: m except Exception as e: h e] *)
Definition try_except `{Env} {A} (m : IO A) (h : exn → IO A) : IO A := λ w,
  match m w with
  | (w1, ev1, Raise e) => let '(w2, ev2, r) := h e w1 in (w2, ev1 ++ ev2, r)
  | r => r
  end.

(** [for x in xs: acc = body acc x] *)
Fixpoint for_each `{Env} {A X} (body : A → X → IO A) (acc : A) (xs : list X) : IO A :=
  match xs with
  | [] => mret acc
  | x :: xs' => acc' ← body acc x; for_each body acc' xs'
  end.

(** [d[key]] *)
Definition getitem `{Env} {A} (key : string) (o : option A) : IO A :=
  match o with
  | Some a => mret a
  | None => raise (KeyError key)
  end.

(** [time.sleep] *)
Definition sleep `{Env} (ms : Z) : IO unit := emit (EvSleep ms).

(** [for x in X] for a [set]: the elements in the order of the process. *)
Definition iter_set `{Env} `{Countable A} (X : gset A) : IO (list A) := λ w,
  (w, [], Ok (set_order w A X)).

(** ** The transport: [requests] with a [urllib3] retry policy

    [session()] mounts an [HTTPAdapter] that carries a [urllib3.util.Retry].
    What this object does with a request is fixed by the two libraries; the
    definitions of this part follow their behaviour:
    - [total] is the number of retries allowed: [Retry.increment] lowers it
      by one after a failed attempt, and the request is given up, with
      [MaxRetryError], once it is below zero;
    - [Retry.is_retry] has a response retried when the method is one of
      [allowed_methods] and the status is in [status_forcelist] or, while
      [total] is not zero, in [RETRY_AFTER_STATUS_CODES] with a Retry-After
      header;
    - a connection error is retried for every method, a read error for the
      allowed ones;
    - before the next attempt [Retry.sleep] waits: for the delay of a
      Retry-After header when the response has one, else for the backoff,
      [backoff_factor * 2 ** (n - 1)] after [n] failures in a row, at most
      [DEFAULT_BACKOFF_MAX], and nothing after the first;
    - [raise_on_status] keeps its default: a retried status that persists
      ends in [MaxRetryError], which [requests] raises as [RetryError]; an
      error that persists is raised as [ConnectTimeout] or
      [ConnectionError];
    - [Session.request] follows redirects: a response with one of the
      [REDIRECT_STATI] and a Location header is answered with a request to
      that URL, sent through the adapter like the first one, up to
      [DEFAULT_REDIRECT_LIMIT] times, after which it raises
      [TooManyRedirects]. *)

(** The arguments of [Retry] that [session] sets, and
    [respect_retry_after_header], which keeps its default. The backoff
    factor is a duration: 500 for [backoff_factor=0.5]. *)
Record Retry := {
  total : nat;
  backoff_factor : Z;
  status_forcelist : list Z;
  allowed_methods : list method;
  respect_retry_after_header : bool }.

Definition RETRY_AFTER_STATUS_CODES : list Z := [413; 429; 503].

Definition DEFAULT_BACKOFF_MAX : Z := 120000.

Definition is_method_retryable (r : Retry) (m : method) : bool :=
  bool_decide (m ∈ allowed_methods r).

(** [bool(response.headers.get("Retry-After"))] *)
Definition has_retry_after (resp : Response) : bool :=
  match retry_after resp with
  | Some _ => true
  | None => false
  end.

(** [Retry.is_retry], where [left] is the current value of [total]. *)
Definition is_retry (r : Retry) (left : nat) (m : method) (status : Z) (has_retry_after : bool) : bool :=
  is_method_retryable r m &&
  (bool_decide (status ∈ status_forcelist r)
   || (bool_decide (left ≠ 0%nat) && respect_retry_after_header r && has_retry_after
       && bool_decide (status ∈ RETRY_AFTER_STATUS_CODES))).

Definition is_connection_error (e : net_error) : bool :=
  match e with
  | ConnectTimeoutError | NewConnectionError => true
  | ReadTimeoutError | ProtocolError => false
  end.

(** The exception of [requests] for an attempt that failed once the retries
    are used up, and for a read error that is not retried at all. *)
Definition exhausted_exception (e : net_error) : request_exception :=
  match e with
  | ConnectTimeoutError => ConnectTimeout
  | _ => ConnectionError
  end.

Definition unretried_exception (e : net_error) : request_exception :=
  match e with
  | ReadTimeoutError => ReadTimeout
  | _ => ConnectionError
  end.

(** [Retry.get_backoff_time], where [failed] is the length of the history:
    the failures of the request so far. *)
Definition get_backoff_time (r : Retry) (failed : nat) : Z :=
  if (failed <=? 1)%nat then 0
  else Z.min DEFAULT_BACKOFF_MAX (backoff_factor r * 2 ^ (Z.of_nat failed - 1)).

(** The time [Retry.sleep] waits after an attempt that ended with [a]: the
    delay of the Retry-After header of a response, when there is one and it
    is not zero, else the backoff. *)
Definition sleep_time (r : Retry) (failed : nat) (a : net_error + Response) : Z :=
  match a with
  | inr resp =>
      match (if respect_retry_after_header r then retry_after resp else None) with
      | Some ms => if 0 <? ms then ms else get_backoff_time r failed
      | None => get_backoff_time r failed
      end
  | inl _ => get_backoff_time r failed
  end.

(** [Retry.sleep]: no call of [time.sleep] for a time of zero. *)
Definition Retry_sleep `{Env} (r : Retry) (failed : nat) (a : net_error + Response) : IO unit :=
  let ms := sleep_time r failed a in
  if 0 <? ms then emit (EvWait ms) else mret tt.

(** One attempt on the wire. *)
Definition transmit `{Env} (rq : Request) : IO (net_error + Response) := λ w,
  let '(w', a) := wire w rq in (w', [EvSend rq], Ok a).

(** [HTTPConnectionPool.urlopen] under a retry policy, where [left] is the
    current value of [total] and [failed] the length of the history. *)
Fixpoint urlopen `{Env} (r : Retry) (left failed : nat) (rq : Request) : IO Response :=
  a ← transmit rq;
  match a with
  | inl err =>
      if is_connection_error err || is_method_retryable r (rq_method rq) then
        match left with
        | O => raise (RequestException (exhausted_exception err))
        | S left' => Retry_sleep r (S failed) a;; urlopen r left' (S failed) rq
        end
      else raise (RequestException (unretried_exception err))
  | inr resp =>
      if is_retry r left (rq_method rq) (status_code resp) (has_retry_after resp) then
        match left with
        | O => raise (RequestException RetryError)
        | S left' => Retry_sleep r (S failed) a;; urlopen r left' (S failed) rq
        end
      else mret resp
  end.

(** [HTTPAdapter(max_retries=r).send] *)
Definition HTTPAdapter_send `{Env} (r : Retry) (rq : Request) : IO Response :=
  urlopen r (total r) 0 rq.

(** A [requests.Session]: the adapter mounted on ["https://"], which serves
    both endpoints of the program, and the headers added to every request. *)
Record Session := {
  s_adapter : Retry;
  s_headers : list (string * string) }.

Definition session : Session := {|
  s_adapter := {|
    total := 5;
    backoff_factor := 500;
    status_forcelist := [429; 500; 502; 503; 504];
    allowed_methods := [GET];
    respect_retry_after_header := true |};
  s_headers := [("User-Agent", "PubTatorPMIDFetcher/2.0")] |}.

Definition REDIRECT_STATI : list Z := [301; 302; 303; 307; 308].

Definition DEFAULT_REDIRECT_LIMIT : nat := 30.

(** [Session.get_redirect_target] *)
Definition get_redirect_target (resp : Response) : option string :=
  if bool_decide (status_code resp ∈ REDIRECT_STATI) then location resp else None.

(** [Session.rebuild_method] *)
Definition rebuild_method (m : method) (status : Z) : method :=
  if (status =? 303) && negb (bool_decide (m = HEAD)) then GET
  else if (status =? 302) && negb (bool_decide (m = HEAD)) then GET
  else if (status =? 301) && bool_decide (m = POST) then GET
  else m.

(** The request that follows a redirect to [url]: the parameters of the
    first request were part of its URL and go with it; the headers of the
    session and the timeout stay. *)
Definition redirected (rq : Request) (resp : Response) (url : string) : Request :=
  {| rq_method := rebuild_method (rq_method rq) (status_code resp);
     rq_url := url; rq_params := [];
     rq_headers := rq_headers rq; rq_timeout := rq_timeout rq |}.

(** [Session.resolve_redirects], where [fuel] is the number of redirects
    that may still be followed. *)
Fixpoint resolve_redirects `{Env} (s : Session) (fuel : nat) (rq : Request)
    (resp : Response) : IO Response :=
  match get_redirect_target resp with
  | None => mret resp
  | Some url =>
      match fuel with
      | O => raise (RequestException TooManyRedirects)
      | S fuel' =>
          let rq' := redirected rq resp url in
          emit (EvRedirect rq');;
          resp' ← HTTPAdapter_send (s_adapter s) rq';
          resolve_redirects s fuel' rq' resp'
      end
  end.

(** [s.request(m, url, params=params, timeout=timeout)] *)
Definition Session_request `{Env} (s : Session) (m : method) (url : string)
    (params : list (string * param)) (timeout : Z) : IO Response :=
  let rq := {| rq_method := m; rq_url := url; rq_params := params;
               rq_headers := s_headers s; rq_timeout := timeout |} in
  emit (EvCall rq);;
  resp ← HTTPAdapter_send (s_adapter s) rq;
  r ← resolve_redirects s DEFAULT_REDIRECT_LIMIT rq resp;
  emit (EvReply r);;
  mret r.

(** [s.get(url, params=params, timeout=timeout)] *)
Definition Session_get `{Env} (s : Session) := Session_request s GET.

(** [r.raise_for_status()] *)
Definition raise_for_status `{Env} (r : Response) : IO unit :=
  if (400 <=? status_code r) && (status_code r <? 600)
  then raise (HTTPError (status_code r))
  else mret tt.

(** [r.json()] *)
Definition Response_json `{Env} (r : Response) : IO Body :=
  match json r with
  | Some b => mret b
  | None => raise (RequestException JSONDecodeError)
  end.

(** ** The program *)

Definition EUTILS : string := "https://eutils.ncbi.nlm.nih.gov/entrez/eutils/esearch.fcgi".
Definition PT_EXPORT : string := "https://www.ncbi.nlm.nih.gov/research/pubtator-api/publications/export/biocjson".

(** The [params] of the count probe and of the request for one window. *)
Definition count_params (query : string) : list (string * param) :=
  [("db", PStr "pubmed"); ("retmode", PStr "json"); ("term", PStr query); ("retmax", PInt 0)].

Definition window_params (query : string) (chunk start : Z) : list (string * param) :=
  [("db", PStr "pubmed"); ("retmode", PStr "json"); ("term", PStr query);
   ("retmax", PInt chunk); ("retstart", PInt start)].

(** The body of the loop of [esearch_all_pmids]. *)
Definition esearch_window `{Env} (s : Session) (query : string) (chunk : Z)
    (pmids : list string) (start : Z) : IO (list string) :=
  r ← Session_get s EUTILS (window_params query chunk start) 60;
  raise_for_status r;;
  body ← Response_json r;
  er ← getitem "esearchresult" (b_esearchresult body);
  let pmids := pmids ++ default [] (er_idlist er) in
  sleep 340;;
  mret pmids.

(** Collect all PMIDs for a PubMed query via esearch. *)
Definition esearch_all_pmids `{Env} (query : string) (chunk : Z) : IO (list string) :=
  let s := session in
  r ← Session_get s EUTILS (count_params query) 60;
  raise_for_status r;;
  body ← Response_json r;
  er ← getitem "esearchresult" (b_esearchresult body);
  c ← getitem "count" (er_count er);
  count ← lift (Py.int c);
  starts ← lift (Py.range 0 count chunk);
  pmids ← for_each (esearch_window s query chunk) [] starts;
  (* unique & numeric sort *)
  unique ← iter_set (list_to_set pmids : gset string);
  lift (Py.sorted Py.int unique).

(** [ann_count] of a document: the annotations of all its passages. *)
Definition ann_count (doc : Document) : Z :=
  foldl (λ n p, n + Py.len (default [] (p_annotations p))) 0 (default [] (d_passages doc)).

(** The loop over the documents of one response. *)
Definition keep_documents (keep : gset (option string)) (docs : list Document) : gset (option string) :=
  foldl (λ keep doc, if 0 <? ann_count doc then {[ d_id doc ]} ∪ keep else keep) keep docs.

Definition export_params (batch concepts : list string) : list (string * param) :=
  [("pmids", PStr (Py.join "," batch)); ("concepts", PStr (Py.join "," concepts))].

(** The body of the loop of [pubtator_has_concept]. *)
Definition pubtator_batch `{Env} (s : Session) (pmids concepts : list string) (page : Z)
    (keep : gset (option string)) (i : Z) : IO (gset (option string)) :=
  let batch := Py.slice pmids i (i + page) in
  r ← Session_get s PT_EXPORT (export_params batch concepts) 120;
  raise_for_status r;;
  data ← Response_json r;
  let keep := keep_documents keep (default [] (b_documents data)) in
  sleep 500;;
  mret keep.

(** Return subset of PMIDs that PubTator returns with ≥1 annotation for the
    given concepts. An element of the result is what [doc.get("id")] gave:
    [None] for a document without ["id"]. *)
Definition pubtator_has_concept `{Env} (pmids concepts : list string) (page : Z)
    : IO (gset (option string)) :=
  let s := session in
  starts ← lift (Py.range 0 (Py.len pmids) page);
  for_each (pubtator_batch s pmids concepts page) ∅ starts.

(** The parsed command line; [concepts] and [out] default to [""]. *)
Record Args := {
  keyword : string;
  concepts : string;
  out : string }.

(** [[c.strip() for c in concepts.split(",") if c.strip()]] *)
Definition normalize_concepts (concepts : string) : list string :=
  Py.strip <$> filter (λ c, Py.truthy (Py.strip c) = true) (Py.split "," concepts).

(** The key [lambda x: int(x)] on an element of the filter's result. *)
Definition int_of_id (x : option string) : result Z :=
  match x with
  | Some s => Py.int s
  | None => Raise TypeError
  end.

(** The body of the [try] block of [main]. Once [sorted] has returned,
    every element is a string. *)
Definition pipeline `{Env} (args : Args) : IO (list string) :=
  pmids ← esearch_all_pmids (keyword args) 10000;
  if Py.truthy (Py.strip (concepts args)) then
    let concepts := normalize_concepts (concepts args) in
    subset ← pubtator_has_concept pmids concepts 1000;
    subset ← iter_set subset;
    pmids ← lift (Py.sorted int_of_id subset);
    mret (omap id pmids)
  else mret pmids.

Definition nl : string := String "010"%char "".

(** [sys.exit(code)] *)
Definition sys_exit `{Env} {A} (code : Z) : IO A := raise (SystemExit code).

(** The two [except] clauses of [main]; any other exception passes. *)
Definition handler `{Env} (e : exn) : IO (list string) :=
  match e with
  | HTTPError _ => emit (EvStderr ("HTTP error: " +:+ str_exn e +:+ nl));; sys_exit 1
  | RequestException _ => emit (EvStderr ("Request failed: " +:+ str_exn e +:+ nl));; sys_exit 1
  | _ => raise e
  end.

(** [open(path, "w")] *)
Definition open_for_writing `{Env} (path : string) : IO unit := λ w,
  let '(w', ok) := open_w w path in
  (w', [], if ok then Ok tt else Raise OSError).

(** The output stage of [main]. *)
Definition output `{Env} (args : Args) (pmids : list string) : IO unit :=
  if Py.truthy (out args) then
    open_for_writing (out args);;
    for_each (λ _ p, emit (EvWrite (out args) (p +:+ nl))) tt pmids;;
    emit (EvPrint ("Wrote " +:+ pretty (Py.len pmids) +:+ " PMIDs to " +:+ out args))
  else
    for_each (λ _ p, emit (EvPrint p)) tt pmids;;
    emit (EvStderr (nl +:+ "Total PMIDs: " +:+ pretty (Py.len pmids) +:+ nl)).

Definition main `{Env} (args : Args) : IO unit :=
  pmids ← try_except (pipeline args) handler;
  output args pmids.

(** The exit status of the process for the way [main] ends: [0] when it
    returns, the code of [sys.exit], and [1] for an uncaught exception. *)
Definition exit_status {A} (r : result A) : Z :=
  match r with
  | Ok _ => 0
  | Raise (SystemExit code) => code
  | Raise _ => 1
  end.

(** ** Observations on a run *)

(** The request [s.get(url, params=params, timeout=timeout)] issues. *)
Definition get_request (s : Session) (url : string) (params : list (string * param))
    (timeout : Z) : Request :=
  {| rq_method := GET; rq_url := url; rq_params := params;
     rq_headers := s_headers s; rq_timeout := timeout |}.

(** The requests the program issued, the attempts put on the wire, the
    waits between them and the responses handed back, in order. *)
Definition calls (evs : list event) : list Request :=
  omap (λ ev, match ev with EvCall rq => Some rq | _ => None end) evs.

Definition sends (evs : list event) : list Request :=
  omap (λ ev, match ev with EvSend rq => Some rq | _ => None end) evs.

Definition waits (evs : list event) : list Z :=
  omap (λ ev, match ev with EvWait ms => Some ms | _ => None end) evs.

Definition replies (evs : list event) : list Response :=
  omap (λ ev, match ev with EvReply r => Some r | _ => None end) evs.

(** What the run printed, wrote to the error stream and to the output file. *)
Definition printed (evs : list event) : list string :=
  omap (λ ev, match ev with EvPrint line => Some line | _ => None end) evs.

Definition stderr (evs : list event) : list string :=
  omap (λ ev, match ev with EvStderr text => Some text | _ => None end) evs.

Definition written (evs : list event) : list (string * string) :=
  omap (λ ev, match ev with EvWrite path text => Some (path, text) | _ => None end) evs.

(** The value of a parameter of a request. *)
Definition get_param (name : string) (rq : Request) : option param :=
  snd <$> find (λ kv, String.eqb kv.1 name) (rq_params rq).

(** [raise_for_status] lets the response pass. *)
Definition ok (r : Response) : bool :=
  negb ((400 <=? status_code r) && (status_code r <? 600)).

(** The total a response to the count probe reports, when it has one. *)
Definition reported_count (r : Response) : option Z :=
  body ← json r;
  er ← b_esearchresult body;
  c ← er_count er;
  match Py.int c with
  | Ok n => Some n
  | Raise _ => None
  end.

(** The identifiers a response to a window request carries. *)
Definition window_ids (r : Response) : option (list string) :=
  body ← json r;
  er ← b_esearchresult body;
  Some (default [] (er_idlist er)).

(** The documents of a response of the annotation export. *)
Definition documents (r : Response) : list Document :=
  default [] (json r ≫= b_documents).

(** ** Some upstream services *)

Definition describe (e : exn) : string :=
  match e with
  | HTTPError status => pretty status +:+ " Error"
  | RequestException RetryError => "Max retries exceeded"
  | RequestException _ => "connection failed"
  | _ => "error"
  end.

(** A service that answers attempt [n] to a request with [serve n rq]; the
    state of the world is the number of attempts made so far. A set is
    iterated over in the order of [elements]. *)
Definition scripted (serve : nat → Request → net_error + Response)
    (writable : string → bool) : Env := {|
  World := nat;
  wire := λ n rq, (S n, serve n rq);
  open_w := λ n path, (n, writable path);
  str_exn := describe;
  set_order := λ _ A _ _ X, elements X;
  set_order_perm := λ _ A _ _ X, reflexivity (elements X) |}.

(** The same, in a process that iterates over a set in the order of
    [elements] or in the opposite one: the state of the world tells which. *)
Definition seeded (serve : nat → Request → net_error + Response)
    (writable : string → bool) : Env := {|
  World := bool * nat;
  wire := λ w rq, ((w.1, S w.2), serve w.2 rq);
  open_w := λ w path, (w, writable path);
  str_exn := describe;
  set_order := λ w A _ _ X, if w.1 then reverse (elements X) else elements X;
  set_order_perm := λ w A _ _ X,
    match w.1 as b return (if b then reverse (elements X) else elements X) ≡ₚ elements X with
    | true => reverse_Permutation (elements X)
    | false => reflexivity (elements X)
    end |}.

Definition response_200 (body : Body) : Response :=
  {| status_code := 200; retry_after := None; location := None; json := Some body |}.

Definition response_status (status : Z) : Response :=
  {| status_code := status; retry_after := None; location := None; json := None |}.

Definition esearch_body (count : string) (idlist : list string) : Body :=
  {| b_esearchresult := Some {| er_count := Some count; er_idlist := Some idlist |};
     b_documents := None |}.

Definition export_body (docs : list Document) : Body :=
  {| b_esearchresult := None; b_documents := Some docs |}.

Definition annotated (id : string) (n : nat) : Document :=
  {| d_id := Some id;
     d_passages := Some [ {| p_annotations := Some (replicate n annotation_record) |} ] |}.


(** Every attempt is answered 503. *)
Definition unavailable : Env :=
  scripted (λ _ _, inr (response_status 503)) (λ _, true).

(** Every attempt is answered 404. *)
Definition not_found : Env :=
  scripted (λ _ _, inr (response_status 404)) (λ _, true).


(** A search service with 25000 matches whose windows carry two identifiers
    each, derived from the offset. *)
Definition pubmed_25000 : Env :=
  scripted (λ _ rq,
    inr (response_200 (esearch_body "25000"
      match get_param "retstart" rq with
      | Some (PInt start) => [pretty (start + 2); pretty (start + 1)]
      | _ => []
      end))) (λ _, true).

(** A search service without matches. *)
Definition pubmed_empty : Env :=
  scripted (λ _ _, inr (response_200 (esearch_body "0" []))) (λ _, true).

(** A search service whose only window carries one number spelled twice. *)
Definition pubmed_leading_zero : Env :=
  scripted (λ _ _, inr (response_200 (esearch_body "2" ["7"; "07"]))) (λ _, true).

(** An annotation service that answers with a document nobody asked for. *)
Definition pubtator_foreign : Env :=
  scripted (λ _ _, inr (response_200 (export_body [annotated "999" 1]))) (λ _, true).

(** An annotation service that answers with two documents of the same
    identifier, one with an annotation and one without. *)
Definition pubtator_twice : Env :=
  scripted (λ _ _, inr (response_200 (export_body [annotated "1" 1; annotated "1" 0]))) (λ _, true).

(** Both services behind one address: a search with two matches, and an
    export that annotates the first of them. *)
Definition both_services : Env :=
  scripted (λ _ rq,
    inr (response_200
      {| b_esearchresult := Some {| er_count := Some "2"; er_idlist := Some ["10"; "9"] |};
         b_documents := Some [annotated "9" 2; annotated "10" 0] |})) (λ _, true).

(** ** Vocabulary of the properties *)

(** Order of two elements by their keys. *)
Definition key_le {A} (key : A → result Z) (x y : A) : Prop :=
  ∃ a b, key x = Ok a ∧ key y = Ok b ∧ a ≤ b.

Definition key_lt {A} (key : A → result Z) (x y : A) : Prop :=
  ∃ a b, key x = Ok a ∧ key y = Ok b ∧ a < b.

(** Order of two PMIDs by their numeric value. *)
Definition num_le : relation string := key_le Py.int.
Definition num_lt : relation string := key_lt Py.int.

(** [spec I Q P m]: every event of a run of [m] satisfies [I], a value it
    returns satisfies [Q] and an exception it raises satisfies [P]. *)
Definition spec `{Env} {A} (I : event → Prop) (Q : A → Prop) (P : exn → Prop)
    (m : IO A) : Prop :=
  ∀ w w' evs res, m w = (w', evs, res) →
    Forall I evs ∧ match res with Ok a => Q a | Raise e => P e end.


(** The search service answers every window request of [query] with a
    response the collector can read. *)
Definition serves_windows `{Env} (query : string) (chunk : Z) : Prop :=
  ∀ w start, ∃ w' evs r,
    Session_get session EUTILS (window_params query chunk start) 60 w = (w', evs, Ok r) ∧
    ok r = true ∧ is_Some (window_ids r).

(** The documents of the responses handed to the program, in order. *)
Definition processed (evs : list event) : list Document :=
  replies evs ≫= documents.

(** What can be observed of a run: its events and the way it ends. *)
Definition observe `{Env} {A} (x : World * list event * result A) : list event * result A :=
  (x.1.2, x.2).

(** The answer to [rq] does not depend on the state of the world: the
    upstream result set is unchanged. *)
Definition settled `{Env} (rq : Request) : Prop :=
  ∀ w1 w2, (wire w1 rq).2 = (wire w2 rq).2.

(** A computation whose observable run does not depend on the state it
    starts in. *)
Definition oblivious `{Env} {A} (m : IO A) : Prop :=
  ∀ w1 w2, observe (m w1) = observe (m w2).

(** Two runs that perform the same events and end alike: with values that
    [R] relates, or with the same exception. *)
Definition alike `{Env} {A} (R : relation A) (x y : World * list event * result A) : Prop :=
  x.1.2 = y.1.2 ∧
  match x.2, y.2 with
  | Ok a, Ok b => R a b
  | Raise e1, Raise e2 => e1 = e2
  | _, _ => False
  end.

(** A computation whose runs are alike whatever the state they start in. *)
Definition steady `{Env} {A} (R : relation A) (m : IO A) : Prop :=
  ∀ w1 w2, alike R (m w1) (m w2).

(** Two sequences of the same PMIDs in ascending numeric order, which are
    one sequence when no two of the PMIDs spell the same number. *)
Definition same_PMIDs (out1 out2 : list string) : Prop :=
  out1 ≡ₚ out2 ∧ StronglySorted num_le out1 ∧ StronglySorted num_le out2 ∧
  ((∀ x y, x ∈ out1 → y ∈ out1 → Py.int x = Py.int y → x = y) → out1 = out2).

(** The events of the network stage: nothing is printed or written. *)
Definition network_event (ev : event) : Prop :=
  match ev with
  | EvCall _ | EvRedirect _ | EvSend _ | EvWait _ | EvReply _ | EvSleep _ => True
  | EvPrint _ | EvStderr _ | EvWrite _ _ => False
  end.

(** An [HTTPError] carries a failing status that the session does not
    retry. *)
Definition unretried_status (e : exn) : Prop :=
  ∀ status, e = HTTPError status →
    400 ≤ status < 600 ∧ status ∉ status_forcelist (s_adapter session).

(** A request of the program goes to [url]. *)
Definition calls_only (url : string) (ev : event) : Prop :=
  ∀ rq, ev = EvCall rq → rq_url rq = url.

(** An event of the network stage whose requests go to [url]. *)
Definition request_event (url : string) (ev : event) : Prop :=
  network_event ev ∧ calls_only url ev.

(** ** Further observations *)

(** The identifiers the loop of the collector takes from a response:
    [r.json()["esearchresult"].get("idlist", [])]. *)
Definition ids_of (r : Response) : list string :=
  default [] (window_ids r).

(** The exception with which [r = s.get(...); r.raise_for_status()] ends,
    for the way [s.get] ended; [None] when the response passes. *)
Definition failure (res : result Response) : option exn :=
  match res with
  | Raise e => Some e
  | Ok r => if ok r then None else Some (HTTPError (status_code r))
  end.

(** The batches the loop of the filter goes through:
    [pmids[i:i+page]] for [i] in [range(0, len(pmids), page)]. *)
Definition batches (pmids : list string) (page : Z) : result (list (list string)) :=
  match Py.range 0 (Py.len pmids) page with
  | Ok starts => Ok ((λ i, Py.slice pmids i (i + page)) <$> starts)
  | Raise e => Raise e
  end.

(** The request of the filter for one batch. *)
Definition export_request (concepts batch : list string) : Request :=
  get_request session PT_EXPORT (export_params batch concepts) 120.

(** The request of the collector for the window that starts at [start]. *)
Definition window_request (query : string) (chunk start : Z) : Request :=
  get_request session EUTILS (window_params query chunk start) 60.

(** The requests and the pauses of a run, in order. *)
Definition paced (evs : list event) : list (Request + Z) :=
  omap (λ ev, match ev with
              | EvCall rq => Some (inl rq)
              | EvSleep ms => Some (inr ms)
              | _ => None
              end) evs.

(** The state of the world after [k] attempts at [rq]. *)
Fixpoint after `{Env} (rq : Request) (k : nat) (w : World) : World :=
  match k with
  | O => w
  | S k' => after rq k' (wire w rq).1
  end.

(** An answer after which the session tries a GET again: an error, or a
    status of the retry list. *)
Definition retried_answer (a : net_error + Response) : bool :=
  match a with
  | inl _ => true
  | inr r => bool_decide (status_code r ∈ status_forcelist (s_adapter session))
  end.

(** What [s.get] raises when the last attempt it may make ends with [a]. *)
Definition exhausted (a : net_error + Response) : exn :=
  match a with
  | inl err => RequestException (exhausted_exception err)
  | inr _ => RequestException RetryError
  end.

(** An answer after which the adapter does not hand a response back: it
    tries again, or gives the request up when no retry is left. *)
Definition failed_attempt (r : Retry) (left : nat) (rq : Request) (a : net_error + Response) : bool :=
  match a with
  | inl err => is_connection_error err || is_method_retryable r (rq_method rq)
  | inr resp => is_retry r left (rq_method rq) (status_code resp) (has_retry_after resp)
  end.

(** The events between the [failed]-th failure of a request, which ended
    with [a], and the next attempt. *)
Definition pause (r : Retry) (failed : nat) (a : net_error + Response) : list event :=
  if 0 <? sleep_time r failed a then [EvWait (sleep_time r failed a)] else [].

(** The events of [k] failures of [rq] in a row from the state [w], each
    followed by its pause, and of one more attempt. *)
Definition exchange `{Env} (r : Retry) (rq : Request) (w : World) (k : nat) : list event :=
  (seq 0 k ≫= λ j, EvSend rq :: pause r (S j) (wire (after rq j w) rq).2) ++ [EvSend rq].


(** What the transport does for a request [rq]: attempts at [rq] or at a
    redirect of it, which keeps the headers and the timeout and, for a GET,
    the method, and waits. *)
Definition transport_event (rq : Request) (ev : event) : Prop :=
  match ev with
  | EvSend rq' | EvRedirect rq' =>
      rq_headers rq' = rq_headers rq ∧ rq_timeout rq' = rq_timeout rq ∧
      (rq_method rq = GET → rq_method rq' = GET)
  | EvWait _ => True
  | _ => False
  end.

(** The shape of every request of the program: a GET with the headers of
    the session, to the search endpoint with a timeout of 60 seconds or to
    the export endpoint with a timeout of 120 seconds. *)
Definition program_request (rq : Request) : Prop :=
  rq_method rq = GET ∧
  rq_headers rq = [("User-Agent", "PubTatorPMIDFetcher/2.0")] ∧
  ((rq_url rq = EUTILS ∧ rq_timeout rq = 60) ∨ (rq_url rq = PT_EXPORT ∧ rq_timeout rq = 120)).

(** The shape of every attempt the session makes for the program, at an
    endpoint or at the target of a redirect. *)
Definition program_attempt (rq : Request) : Prop :=
  rq_method rq = GET ∧
  rq_headers rq = [("User-Agent", "PubTatorPMIDFetcher/2.0")] ∧
  (rq_timeout rq = 60 ∨ rq_timeout rq = 120).

(** An event that is no request, or one of these shapes. *)
Definition shaped_event (ev : event) : Prop :=
  match ev with
  | EvCall rq => program_request rq
  | EvSend rq | EvRedirect rq => program_attempt rq
  | _ => True
  end.

(** A string without the character [c]. *)
Fixpoint free_of (c : ascii) (s : string) : Prop :=
  match s with
  | EmptyString => True
  | String c' s' => c' ≠ c ∧ free_of c s'
  end.

(** ** Further upstream services *)

(** A search service whose answer to the probe has no ["count"]. *)
Definition pubmed_no_count : Env :=
  scripted (λ _ _, inr (response_200
    {| b_esearchresult := Some {| er_count := None; er_idlist := Some ["9"] |};
       b_documents := None |})) (λ _, true).

(** Both services behind one address, where the export answers with an
    annotated document that has no ["id"]. *)
Definition pubtator_no_id : Env :=
  scripted (λ _ rq,
    inr (response_200
      {| b_esearchresult := Some {| er_count := Some "1"; er_idlist := Some ["9"] |};
         b_documents := Some [ {| d_id := None;
           d_passages := Some [ {| p_annotations := Some [annotation_record] |} ] |} ] |}))
    (λ _, true).

(** An annotation service that knows one document, 9, and annotates it. *)
Definition pubtator_nine : Env :=
  scripted (λ _ _, inr (response_200 (export_body [annotated "9" 1]))) (λ _, true).

(** A search service that is reached at the third attempt: the connection
    times out, then the answer is 502, then 200. *)
Definition flaky : Env :=
  scripted (λ n _,
    match n with
    | O => inl ConnectTimeoutError
    | S O => inr (response_status 502)
    | _ => inr (response_200 (esearch_body "0" []))
    end) (λ _, true).

(** No connection can be opened. *)
Definition unreachable : Env :=
  scripted (λ _ _, inl NewConnectionError) (λ _, true).

(** Both services as in [both_services], with a file system on which no
    file can be opened. *)
Definition read_only : Env :=
  scripted (λ _ rq,
    inr (response_200
      {| b_esearchresult := Some {| er_count := Some "2"; er_idlist := Some ["10"; "9"] |};
         b_documents := Some [annotated "9" 2; annotated "10" 0] |})) (λ _, false).

(** The exception the collector raises on the response to a request, if
    any: the status fails, the body is not JSON, or it has no
    ["esearchresult"]. *)
Definition unreadable (r : Response) : option exn :=
  if ok r then
    match json r with
    | None => Some (RequestException JSONDecodeError)
    | Some body =>
        match b_esearchresult body with
        | None => Some (KeyError "esearchresult")
        | Some _ => None
        end
    end
  else Some (HTTPError (status_code r)).

(** The text [r.json()["esearchresult"]["count"]] of a response, when it
    has one. *)
Definition count_text (r : Response) : option string :=
  body ← json r;
  er ← b_esearchresult body;
  er_count er.

(** A search service that has moved: the first attempt is answered with a
    redirect to another address, where the search is served. *)
Definition moved : Env :=
  scripted (λ n _,
    match n with
    | O => inr {| status_code := 301; retry_after := None;
                  location := Some "https://eutils.example/esearch"; json := None |}
    | _ => inr (response_200 (esearch_body "0" []))
    end) (λ _, true).

(** A service that answers every attempt with a redirect to itself. *)
Definition circular : Env :=
  scripted (λ _ rq, inr {| status_code := 302; retry_after := None;
                           location := Some (rq_url rq); json := None |}) (λ _, true).

(** A search service that asks twice for a delay of three seconds, then
    serves. *)
Definition busy : Env :=
  scripted (λ n _,
    if (n <? 2)%nat
    then inr {| status_code := 503; retry_after := Some 3000; location := None; json := None |}
    else inr (response_200 (esearch_body "0" []))) (λ _, true).

(** The search service of [pubmed_leading_zero], in a process whose order of
    iteration depends on the state it starts in. *)
Definition pubmed_two_orders : Env :=
  seeded (λ _ _, inr (response_200 (esearch_body "2" ["7"; "07"]))) (λ _, true).
(** * Properties *)

(** ** Built-ins *)

Example strip_spaces : Py.strip " disease " = "disease".
Proof. reflexivity. Qed.

Example split_keeps_empty_pieces : Py.split "," "a,,b," = ["a"; ""; "b"; ""].
Proof. reflexivity. Qed.

Example int_literals :
  Py.int " 007 " = Ok 7 ∧ Py.int "-1_0" = Ok (-10) ∧ Py.int "1__0" = Raise ValueError ∧
  Py.int "" = Raise ValueError ∧ Py.int "+" = Raise ValueError ∧ Py.int "12a" = Raise ValueError.
Proof. repeat split; reflexivity. Qed.

(** The separators FS to US are white space for [strip], not for [int];
    a no-break space is white space for both. *)
Example int_white_space :
  Py.strip (String "028" "7") = "7" ∧ Py.int (String "028" "7") = Raise ValueError ∧
  Py.strip (String "160" "7") = "7" ∧ Py.int (String "160" "7") = Ok 7.
Proof. repeat split; reflexivity. Qed.

Example range_steps :
  Py.range 0 25000 10000 = Ok [0; 10000; 20000] ∧ Py.range 0 20000 10000 = Ok [0; 10000] ∧
  Py.range 0 (-5) (-2) = Ok [0; -2; -4] ∧ Py.range 0 5 (-2) = Ok [] ∧
  Py.range 0 (-3) 2 = Ok [] ∧ Py.range 0 3 0 = Raise ValueError.
Proof. repeat split; reflexivity. Qed.

Example slice_clips :
  Py.slice [1; 2; 3; 4; 5] 2 4 = [3; 4] ∧ Py.slice [1; 2; 3; 4; 5] 4 9 = [5] ∧
  Py.slice [1; 2; 3; 4; 5] (-2) 9 = [4; 5].
Proof. repeat split; reflexivity. Qed.

(** Numeric, not lexical, order; equal keys stay in their order. *)
Example sorted_numeric : Py.sorted Py.int ["10"; "9"; "07"; "7"] = Ok ["07"; "7"; "9"; "10"].
Proof. reflexivity. Qed.

Section sorted.
Context {A : Type} (key : A → result Z).

Lemma keys_Ok l kl :
  Py.keys key l = Ok kl → kl.*2 = l ∧ Forall (λ kx, key kx.2 = Ok kx.1) kl.
Proof.
  revert kl. induction l as [|x l IH]; intros kl; simpl.
  - intros [= <-]. split; [done | constructor].
  - destruct (key x) as [k|e] eqn:Hk; simpl; [|done].
    destruct (Py.keys key l) as [kl'|e] eqn:Hkl; simpl; [|done].
    intros [= <-]. destruct (IH kl' eq_refl) as [<- HF].
    split; [done | by constructor].
Qed.

Lemma insert_Permutation (kx : Z * A) l : Py.insert kx l ≡ₚ kx :: l.
Proof.
  induction l as [|ky l IH]; simpl; [done|].
  case_match; [done|]. rewrite IH. apply Permutation_swap.
Qed.

Lemma insert_sorted (kx : Z * A) l :
  StronglySorted (λ a b : Z * A, a.1 ≤ b.1) l →
  StronglySorted (λ a b : Z * A, a.1 ≤ b.1) (Py.insert kx l).
Proof.
  induction 1 as [|ky l Hs IH Hall]; simpl.
  - repeat constructor.
  - destruct (kx.1 <=? ky.1) eqn:Hle.
    + apply Z.leb_le in Hle. constructor; [by constructor|].
      constructor; [done|]. eapply Forall_impl; [exact Hall|]. simpl. lia.
    + apply Z.leb_gt in Hle. constructor; [done|].
      rewrite insert_Permutation. constructor; [lia | done].
Qed.

Lemma foldr_insert_Permutation (kl : list (Z * A)) : foldr Py.insert [] kl ≡ₚ kl.
Proof.
  induction kl as [|kx kl IH]; simpl; [done|].
  by rewrite insert_Permutation, IH.
Qed.

Lemma foldr_insert_sorted (kl : list (Z * A)) :
  StronglySorted (λ a b : Z * A, a.1 ≤ b.1) (foldr Py.insert [] kl).
Proof.
  induction kl as [|kx kl IH]; simpl; [constructor | by apply insert_sorted].
Qed.

Lemma StronglySorted_keyed (kl : list (Z * A)) :
  Forall (λ kx, key kx.2 = Ok kx.1) kl →
  StronglySorted (λ a b : Z * A, a.1 ≤ b.1) kl →
  StronglySorted (key_le key) (kl.*2).
Proof.
  intros HF. induction 1 as [|kx kl Hs IH Hall]; simpl; [constructor|].
  apply Forall_cons in HF as [Hkx HF].
  constructor; [by apply IH|].
  apply Forall_fmap, Forall_forall. intros ky Hin. simpl.
  exists kx.1, ky.1. split_and!; [done | | ].
  - by eapply Forall_forall in HF.
  - by eapply Forall_forall in Hall.
Qed.

(** [sorted] returns a permutation of its argument in ascending order of
    the keys. *)
Lemma sorted_Ok l out :
  Py.sorted key l = Ok out → out ≡ₚ l ∧ StronglySorted (key_le key) out.
Proof.
  unfold Py.sorted. destruct (Py.keys key l) as [kl|e] eqn:Hkl; simpl; [|done].
  intros [= <-]. apply keys_Ok in Hkl as [<- HF]. split.
  - by rewrite foldr_insert_Permutation.
  - apply StronglySorted_keyed; [|apply foldr_insert_sorted].
    by rewrite foldr_insert_Permutation.
Qed.

(** [sorted] raises exactly when some key does, and returns otherwise. *)
Lemma sorted_total l :
  Forall (λ x, ∃ k, key x = Ok k) l → ∃ out, Py.sorted key l = Ok out.
Proof.
  intros HF. unfold Py.sorted.
  assert (∃ kl, Py.keys key l = Ok kl) as [kl ->]; [|simpl; eauto].
  induction HF as [|x l [k Hk] _ [kl IH]]; simpl; [eauto|].
  rewrite Hk, IH. simpl. eauto.
Qed.

Lemma key_le_strict out :
  NoDup out →
  (∀ x y, x ∈ out → y ∈ out → key x = key y → x = y) →
  StronglySorted (key_le key) out → StronglySorted (key_lt key) out.
Proof.
  intros Hnd Hinj. induction 1 as [|x out Hs IH Hall]; [constructor|].
  apply NoDup_cons in Hnd as [Hx Hnd].
  constructor.
  - apply IH; [done|]. intros y z Hy Hz. apply Hinj; by right.
  - apply Forall_forall. intros y Hy.
    eapply Forall_forall in Hall as (a & b & Ha & Hb & Hab); [|done].
    exists a, b. split_and!; [done..|].
    destruct (decide (a = b)) as [->|]; [|lia].
    exfalso. apply Hx. rewrite (Hinj x y); [done | by left | by right | congruence].
Qed.
End sorted.

Lemma int_Raise s e : Py.int s = Raise e → e = ValueError.
Proof. unfold Py.int. repeat case_match; by intros [= <-]. Qed.

Lemma range_Raise start stop step e : Py.range start stop step = Raise e → e = ValueError.
Proof. unfold Py.range. case_match; [by intros [= <-] | done]. Qed.

(** [sorted] raises what the key of one of the elements raises. *)
Lemma sorted_Raise {A} (key : A → result Z) l e :
  Py.sorted key l = Raise e → ∃ x, x ∈ l ∧ key x = Raise e.
Proof.
  unfold Py.sorted. destruct (Py.keys key l) as [kl|e'] eqn:Hkeys; simpl; [done|].
  intros [= ->]. induction l as [|x l IH]; simpl in Hkeys; [done|].
  destruct (key x) as [k|e'] eqn:Hkey; simpl in Hkeys.
  - destruct (Py.keys key l) as [kl|e'] eqn:Hkl; simpl in Hkeys; [done|].
    injection Hkeys as ->. destruct (IH eq_refl) as (y & Hy & Hkey').
    exists y. split; [by right | done].
  - injection Hkeys as ->. exists x. split; [by left | done].
Qed.

(** [sorted] returns only when every key is defined. *)
Lemma sorted_Ok_keys {A} (key : A → result Z) l out x :
  Py.sorted key l = Ok out → x ∈ out → ∃ k, key x = Ok k.
Proof.
  intros Hsorted Hx. pose proof Hsorted as [Hperm _]%sorted_Ok. rewrite Hperm in Hx.
  unfold Py.sorted in Hsorted.
  destruct (Py.keys key l) as [kl|e] eqn:Hkl; simpl in Hsorted; [|done].
  apply keys_Ok in Hkl as [<- HF].
  apply list_elem_of_fmap in Hx as ([k y] & -> & Hin).
  eapply Forall_forall in HF; [|done]. by exists k.
Qed.

(** ** Computations *)

Section io.
Context `{Env}.

Lemma bind_run {A B} (m : IO A) (f : A → IO B) w :
  (m ≫= f) w =
  match m w with
  | (w1, ev1, Ok a) => let '(w2, ev2, r) := f a w1 in (w2, ev1 ++ ev2, r)
  | (w1, ev1, Raise e) => (w1, ev1, Raise e)
  end.
Proof. reflexivity. Qed.

Lemma bind_inv {A B} (m : IO A) (f : A → IO B) w w' evs r :
  (m ≫= f) w = (w', evs, r) →
  (∃ e, m w = (w', evs, Raise e) ∧ r = Raise e) ∨
  (∃ w1 ev1 a ev2, m w = (w1, ev1, Ok a) ∧ f a w1 = (w', ev2, r) ∧ evs = ev1 ++ ev2).
Proof.
  rewrite bind_run. destruct (m w) as [[w1 ev1] [a|e]].
  - destruct (f a w1) as [[w2 ev2] r'] eqn:Hf. intros [= <- <- <-].
    right. by exists w1, ev1, a, ev2.
  - intros [= <- <- <-]. left. by exists e.
Qed.

Lemma bind_Ok {A B} (m : IO A) (f : A → IO B) w w' evs b :
  (m ≫= f) w = (w', evs, Ok b) →
  ∃ w1 ev1 a ev2, m w = (w1, ev1, Ok a) ∧ f a w1 = (w', ev2, Ok b) ∧ evs = ev1 ++ ev2.
Proof. intros [(e & _ & [=])|?]%bind_inv; done. Qed.

Lemma lift_Ok {A} (r : result A) w w' evs a :
  lift r w = (w', evs, Ok a) → r = Ok a ∧ w' = w ∧ evs = [].
Proof. by intros [= <- <- ->]. Qed.

Lemma mret_Ok {A} (x : A) w w' evs a :
  (mret x : IO A) w = (w', evs, Ok a) → a = x ∧ w' = w ∧ evs = [].
Proof. by intros [= <- <- ->]. Qed.

Lemma emit_Ok ev w w' evs a : emit ev w = (w', evs, Ok a) → w' = w ∧ evs = [ev].
Proof. by intros [= <- <-]. Qed.

Lemma getitem_Ok {A} key (o : option A) w w' evs a :
  getitem key o w = (w', evs, Ok a) → o = Some a ∧ w' = w ∧ evs = [].
Proof. destruct o; [|done]. by intros [= <- <- ->]. Qed.

Lemma raise_for_status_Ok r w w' evs a :
  raise_for_status r w = (w', evs, Ok a) → ok r = true ∧ w' = w ∧ evs = [].
Proof.
  unfold raise_for_status, ok. destruct (_ && _); [done|]. by intros [= <- <-].
Qed.

Lemma Response_json_Ok r w w' evs b :
  Response_json r w = (w', evs, Ok b) → json r = Some b ∧ w' = w ∧ evs = [].
Proof.
  unfold Response_json. destruct (json r); [|done]. by intros [= <- <- ->].
Qed.
End io.

(** Inversion of a run that returned, one [bind] after the other: [a] names
    the value of the first computation and [Ha] its run. *)
Tactic Notation "io_inv" hyp(H) "as" ident(a) ident(Ha) :=
  let w1 := fresh "w" in let ev1 := fresh "ev" in let ev2 := fresh "ev" in
  apply bind_Ok in H as (w1 & ev1 & a & ev2 & Ha & H & ->).

(** ** The transport *)

Lemma calls_app evs1 evs2 : calls (evs1 ++ evs2) = calls evs1 ++ calls evs2.
Proof. apply omap_app. Qed.
Lemma sends_app evs1 evs2 : sends (evs1 ++ evs2) = sends evs1 ++ sends evs2.
Proof. apply omap_app. Qed.
Lemma waits_app evs1 evs2 : waits (evs1 ++ evs2) = waits evs1 ++ waits evs2.
Proof. apply omap_app. Qed.
Lemma replies_app evs1 evs2 : replies (evs1 ++ evs2) = replies evs1 ++ replies evs2.
Proof. apply omap_app. Qed.
Lemma paced_app evs1 evs2 : paced (evs1 ++ evs2) = paced evs1 ++ paced evs2.
Proof. apply omap_app. Qed.

(** The events of the transport are no calls, replies or pauses of the
    program. *)
Lemma transport_events rq evs :
  Forall (transport_event rq) evs → calls evs = [] ∧ replies evs = [] ∧ paced evs = [].
Proof.
  induction 1 as [|ev evs Hev _ (? & ? & ?)]; [done|]. by destruct ev.
Qed.

(** A redirect of a redirect of [rq] is a redirect of [rq]. *)
Lemma transport_event_hop rq rq' ev :
  rq_headers rq' = rq_headers rq → rq_timeout rq' = rq_timeout rq →
  (rq_method rq = GET → rq_method rq' = GET) →
  transport_event rq' ev → transport_event rq ev.
Proof.
  intros Hh Ht Hm. destruct ev; simpl; try done;
    intros (-> & -> & Hm'); split_and!; auto.
Qed.

Lemma rebuild_method_GET status : rebuild_method GET status = GET.
Proof. unfold rebuild_method. by repeat case_match. Qed.

Lemma Forall_pause P r failed a : (∀ ms, P (EvWait ms)) → Forall P (pause r failed a).
Proof. intros HP. unfold pause. case_match; by repeat constructor. Qed.

Section transport.
Context `{Env}.

Lemma Retry_sleep_run r failed a w : Retry_sleep r failed a w = (w, pause r failed a, Ok tt).
Proof. unfold Retry_sleep, pause. by destruct (0 <? _). Qed.

Lemma urlopen_unfold r left failed rq w :
  urlopen r left failed rq w =
  let '(w1, a) := wire w rq in
  if failed_attempt r left rq a then
    match left with
    | O => (w1, [EvSend rq], Raise (exhausted a))
    | S left' =>
        let '(w2, evs, res) := urlopen r left' (S failed) rq w1 in
        (w2, EvSend rq :: pause r (S failed) a ++ evs, res)
    end
  else
    (w1, [EvSend rq],
     match a with
     | inl err => Raise (RequestException (unretried_exception err))
     | inr resp => Ok resp
     end).
Proof.
  destruct left; simpl; rewrite bind_run; unfold transmit;
    destruct (wire w rq) as [w1 [err|resp]]; simpl;
    destruct (_ || _) || destruct (is_retry _ _ _ _ _); try reflexivity;
    rewrite bind_run, Retry_sleep_run;
    destruct (urlopen _ _ _ _ _) as [[w2 evs] res]; reflexivity.
Qed.

(** A call of [urlopen]: [k] failed attempts, each followed by its pause,
    and one more attempt, which is handed back, or fails for good. *)
Lemma urlopen_run r left failed rq w w' evs res :
  urlopen r left failed rq w = (w', evs, res) →
  ∃ k, (k ≤ left)%nat ∧ w' = after rq (S k) w ∧
    evs = (seq 0 k ≫= λ j, EvSend rq :: pause r (S (failed + j)) (wire (after rq j w) rq).2)
          ++ [EvSend rq] ∧
    (∀ j, (j < k)%nat → failed_attempt r (left - j) rq (wire (after rq j w) rq).2 = true) ∧
    match res with
    | Ok resp =>
        (wire (after rq k w) rq).2 = inr resp ∧
        failed_attempt r (left - k) rq (inr resp) = false
    | Raise e =>
        (k = left ∧ failed_attempt r 0 rq (wire (after rq k w) rq).2 = true ∧
         e = exhausted (wire (after rq k w) rq).2) ∨
        (∃ err, (wire (after rq k w) rq).2 = inl err ∧
           failed_attempt r (left - k) rq (inl err) = false ∧
           e = RequestException (unretried_exception err))
    end.
Proof.
  revert failed w w' evs res.
  induction left as [|left IH]; intros failed w w' evs res; rewrite urlopen_unfold;
    destruct (wire w rq) as [w1 a] eqn:Hwire.
  - destruct (failed_attempt r 0 rq a) eqn:Hfail; intros [= <- <- <-];
      exists 0%nat; simpl; rewrite Hwire; simpl;
      (split_and!; [lia | done | done | intros; lia |]).
    + left. done.
    + destruct a as [err|resp]; [right; by exists err | done].
  - destruct (failed_attempt r (S left) rq a) eqn:Hfail.
    + destruct (urlopen r left (S failed) rq w1) as [[w2 evs2] res2] eqn:Hrec.
      intros [= <- <- <-].
      apply IH in Hrec as (k & Hk & -> & -> & Hfailed & Hres).
      assert (w1 = (wire w rq).1) as -> by by rewrite Hwire.
      exists (S k). split_and!; [lia | done | | |].
      * change (seq 0 (S k)) with (0%nat :: seq 1 k). rewrite bind_cons. simpl.
        rewrite Hwire, Nat.add_0_r. simpl. rewrite <- (assoc_L (++)).
        do 3 f_equal. rewrite <- fmap_S_seq, list_fmap_bind.
        apply list_bind_ext; [|done]. intros j. simpl. by rewrite Nat.add_succ_r.
      * intros [|j] Hj; simpl; [by rewrite Hwire|].
        replace (left - j)%nat with (S left - S j)%nat by lia. apply Hfailed. lia.
      * simpl. destruct res2 as [resp|e]; [done|].
        destruct Hres as [(-> & ? & ?)|?]; [by left | by right].
    + intros [= <- <- <-]. exists 0%nat. simpl. rewrite Hwire. simpl.
      split_and!; [lia | done | done | intros; lia |].
      destruct a as [err|resp]; [right; by exists err | done].
Qed.

Lemma HTTPAdapter_send_run r rq w w' evs res :
  HTTPAdapter_send r rq w = (w', evs, res) →
  ∃ k, (k ≤ total r)%nat ∧ w' = after rq (S k) w ∧ evs = exchange r rq w k ∧
    (∀ j, (j < k)%nat → failed_attempt r (total r - j) rq (wire (after rq j w) rq).2 = true) ∧
    match res with
    | Ok resp =>
        (wire (after rq k w) rq).2 = inr resp ∧
        failed_attempt r (total r - k) rq (inr resp) = false
    | Raise e =>
        (k = total r ∧ failed_attempt r 0 rq (wire (after rq k w) rq).2 = true ∧
         e = exhausted (wire (after rq k w) rq).2) ∨
        (∃ err, (wire (after rq k w) rq).2 = inl err ∧
           failed_attempt r (total r - k) rq (inl err) = false ∧
           e = RequestException (unretried_exception err))
    end.
Proof. intros (k & Hk & -> & -> & Hfailed & Hres)%urlopen_run. by exists k. Qed.

(** What the adapter raises is a [RequestException]. *)
Lemma HTTPAdapter_send_Raise r rq w w' evs e :
  HTTPAdapter_send r rq w = (w', evs, Raise e) → ∃ kind, e = RequestException kind.
Proof.
  intros (k & _ & _ & _ & _ & [(_ & _ & ->)|(err & _ & _ & ->)])%HTTPAdapter_send_run;
    [|by eexists].
  destruct (wire _ _).2; by eexists.
Qed.

Lemma Forall_exchange (P : event → Prop) r rq w k :
  P (EvSend rq) → (∀ ms, P (EvWait ms)) → Forall P (exchange r rq w k).
Proof.
  intros Hsend Hwait. unfold exchange. apply Forall_app. split; [|by repeat constructor].
  apply Forall_bind, Forall_forall. intros j _. constructor; [done|]. by apply Forall_pause.
Qed.

Lemma sends_pause r failed a : sends (pause r failed a) = [].
Proof. unfold pause. by case_match. Qed.

(** An exchange with [k] failures puts [k + 1] attempts on the wire. *)
Lemma sends_exchange r rq w k : sends (exchange r rq w k) = replicate (S k) rq.
Proof.
  unfold exchange. rewrite sends_app. change (sends [EvSend rq]) with [rq].
  rewrite replicate_S_end. f_equal. generalize 0%nat at 1. intros start.
  revert start. induction k as [|k IH]; intros start; [done|].
  simpl. rewrite sends_app, IH.
  change (sends (EvSend rq :: ?l)) with (rq :: sends l). by rewrite sends_pause.
Qed.

(** A response that is no redirect is handed back as it is. *)
Lemma resolve_redirects_done s fuel rq resp w :
  get_redirect_target resp = None →
  resolve_redirects s fuel rq resp w = (w, [], Ok resp).
Proof. intros Hnone. destruct fuel; simpl; by rewrite Hnone. Qed.



(** The redirects the session follows: what it hands back is no redirect,
    and is the response it started with or one the adapter handed back. *)
Lemma resolve_redirects_run s fuel rq resp w w' evs res :
  resolve_redirects s fuel rq resp w = (w', evs, res) →
  Forall (transport_event rq) evs ∧
  match res with
  | Ok r =>
      get_redirect_target r = None ∧
      ((r = resp ∧ evs = []) ∨
       ∃ m left, (rq_method rq = GET → m = GET) ∧
         is_retry (s_adapter s) left m (status_code r) (has_retry_after r) = false)
  | Raise e => ∃ kind, e = RequestException kind
  end.
Proof.
  revert rq resp w w' evs res.
  induction fuel as [|fuel IH]; intros rq resp w w' evs res; simpl;
    destruct (get_redirect_target resp) as [url|] eqn:Htarget;
    try (intros [= <- <- <-]; split; [constructor | eauto]).
  set (rq' := redirected rq resp url).
  assert (rq_method rq = GET → rq_method rq' = GET) as Hget.
  { simpl. intros ->. apply rebuild_method_GET. }
  rewrite bind_run. simpl. rewrite bind_run.
  destruct (HTTPAdapter_send (s_adapter s) rq' w) as [[w1 ev1] res1] eqn:Hsend.
  pose proof Hsend as (k & _ & _ & -> & _ & Hres1)%HTTPAdapter_send_run.
  assert (Forall (transport_event rq) (exchange (s_adapter s) rq' w k)) as Hev1.
  { by apply Forall_exchange. }
  destruct res1 as [resp'|e];
    [|intros [= <- <- <-]; split; [by constructor | by eapply HTTPAdapter_send_Raise]].
  destruct (resolve_redirects s fuel rq' resp' w1) as [[w2 ev2] res2] eqn:Hrec.
  intros [= <- <- <-]. apply IH in Hrec as [Hev2 Hres2]. split.
  - constructor; [done|]. apply Forall_app. split; [done|].
    eapply Forall_impl; [exact Hev2|]. intros ev. by apply transport_event_hop.
  - destruct res2 as [r|e]; [|done]. destruct Hres2 as [Hnone Hr]. split; [done|].
    right. destruct Hr as [[-> _]|(m & left & Hm & Hretry)].
    + destruct Hres1 as [_ Hretry]. exists (rq_method rq'), (total (s_adapter s) - k)%nat. done.
    + exists m, left. split; [|done]. intros ?. apply Hm. auto.
Qed.

Lemma Session_request_unfold s m url params timeout w :
  let rq := {| rq_method := m; rq_url := url; rq_params := params;
               rq_headers := s_headers s; rq_timeout := timeout |} in
  Session_request s m url params timeout w =
  match HTTPAdapter_send (s_adapter s) rq w with
  | (w1, ev1, Ok resp) =>
      match resolve_redirects s DEFAULT_REDIRECT_LIMIT rq resp w1 with
      | (w2, ev2, Ok r) => (w2, EvCall rq :: ev1 ++ ev2 ++ [EvReply r], Ok r)
      | (w2, ev2, Raise e) => (w2, EvCall rq :: ev1 ++ ev2, Raise e)
      end
  | (w1, ev1, Raise e) => (w1, EvCall rq :: ev1, Raise e)
  end.
Proof.
  intros rq. unfold Session_request. fold rq.
  unfold mbind, IO_bind, emit, mret, IO_ret.
  destruct (HTTPAdapter_send _ _ _) as [[w1 ev1] [resp|e]]; [|reflexivity].
  destruct (resolve_redirects _ _ _ _ _) as [[w2 ev2] [r|e]]; reflexivity.
Qed.

(** The events of one request of the program: the call, what the
    transport does for it, and the response when there is one, which is no
    redirect and which the policy does not retry. *)
Lemma Session_request_run s m url params timeout w w' evs res :
  let rq := {| rq_method := m; rq_url := url; rq_params := params;
               rq_headers := s_headers s; rq_timeout := timeout |} in
  Session_request s m url params timeout w = (w', evs, res) →
  ∃ mid,
    evs = EvCall rq :: mid ++ match res with Ok r => [EvReply r] | Raise _ => [] end ∧
    Forall (transport_event rq) mid ∧
    match res with
    | Ok r =>
        get_redirect_target r = None ∧
        ∃ m' left, (m = GET → m' = GET) ∧
          is_retry (s_adapter s) left m' (status_code r) (has_retry_after r) = false
    | Raise e => ∃ kind, e = RequestException kind
    end.
Proof.
  intros rq. rewrite Session_request_unfold. fold rq.
  destruct (HTTPAdapter_send _ _ _) as [[w1 ev1] res1] eqn:Hsend.
  pose proof Hsend as (k & _ & _ & -> & _ & Hres1)%HTTPAdapter_send_run.
  assert (Forall (transport_event rq) (exchange (s_adapter s) rq w k)) as Hev1.
  { by apply Forall_exchange. }
  destruct res1 as [resp|e].
  - destruct (resolve_redirects _ _ _ _ _) as [[w2 ev2] res2] eqn:Hres.
    apply resolve_redirects_run in Hres as [Hev2 Hres2].
    destruct res2 as [r|e]; intros [= <- <- <-].
    + exists (exchange (s_adapter s) rq w k ++ ev2).
      split; [by rewrite <- (assoc_L (++))|]. split; [by apply Forall_app|].
      destruct Hres2 as [Hnone Hr]. split; [done|].
      destruct Hr as [[-> _]|?]; [|done].
      exists m, (total (s_adapter s) - k)%nat. split; [done|]. by destruct Hres1.
    + exists (exchange (s_adapter s) rq w k ++ ev2).
      split_and!; [by rewrite app_nil_r | by apply Forall_app | done].
  - intros [= <- <- <-]. exists (exchange (s_adapter s) rq w k).
    split_and!; [by rewrite app_nil_r | done | by eapply HTTPAdapter_send_Raise].
Qed.

(** One call of [s.get] is one request of the program, and hands back at
    most the response it returns. *)
Lemma Session_get_calls s url params timeout w w' evs res :
  Session_get s url params timeout w = (w', evs, res) →
  calls evs = [get_request s url params timeout] ∧
  replies evs = match res with Ok r => [r] | Raise _ => [] end.
Proof.
  intros (mid & -> & (Hcalls & Hreplies & _)%transport_events & _)%Session_request_run. split.
  - change (calls (?x :: ?l)) with (get_request s url params timeout :: calls l).
    rewrite calls_app, Hcalls. by destruct res.
  - change (replies (EvCall ?x :: ?l)) with (replies l).
    rewrite replies_app, Hreplies. by destruct res.
Qed.

Lemma Session_get_paced s url params timeout w w' evs res :
  Session_get s url params timeout w = (w', evs, res) →
  paced evs = [inl (get_request s url params timeout)].
Proof.
  intros (mid & -> & (_ & _ & Hpaced)%transport_events & _)%Session_request_run.
  change (paced (EvCall ?x :: ?l)) with (inl x :: paced l).
  rewrite paced_app, Hpaced. by destruct res.
Qed.
End transport.

(** ** A logic of runs *)

Section spec.
Context `{Env} (I : event → Prop) (P : exn → Prop).

Lemma spec_mret {A} (Q : A → Prop) a : Q a → spec I Q P (mret a).
Proof. intros HQ w w' evs res [= <- <- <-]. by split. Qed.

Lemma spec_raise {A} (Q : A → Prop) e : P e → spec I Q P (raise e).
Proof. intros HP w w' evs res [= <- <- <-]. by split. Qed.

Lemma spec_lift {A} (Q : A → Prop) (r : result A) :
  match r with Ok a => Q a | Raise e => P e end → spec I Q P (lift r).
Proof. intros Hr w w' evs res [= <- <- <-]. by split. Qed.

Lemma spec_emit (Q : unit → Prop) ev : I ev → Q tt → spec I Q P (emit ev).
Proof. intros HI HQ w w' evs res [= <- <- <-]. split; [by repeat constructor | done]. Qed.

Lemma spec_bind {A B} (Q : A → Prop) (Q' : B → Prop) (m : IO A) (f : A → IO B) :
  spec I Q P m → (∀ a, Q a → spec I Q' P (f a)) → spec I Q' P (m ≫= f).
Proof.
  intros Hm Hf w w' evs res
    [(e & Hrun & ->)|(w1 & ev1 & a & ev2 & Hrun & Hrun' & ->)]%bind_inv.
  - apply Hm in Hrun as [? ?]. by split.
  - apply Hm in Hrun as [? ?]. apply Hf in Hrun' as [? ?]; [|done].
    split; [by apply Forall_app | done].
Qed.

Lemma spec_for_each {A X} (Q : A → Prop) (body : A → X → IO A) acc xs :
  (∀ acc x, x ∈ xs → Q acc → spec I Q P (body acc x)) →
  Q acc → spec I Q P (for_each body acc xs).
Proof.
  revert acc. induction xs as [|x xs IH]; intros acc Hbody Hacc; simpl.
  - by apply spec_mret.
  - eapply spec_bind; [apply Hbody; [by left | done]|].
    intros acc' Hacc'. apply IH; [|done].
    intros ???. apply Hbody. by right.
Qed.

Lemma spec_getitem {A} (Q : A → Prop) key (o : option A) :
  (∀ a, o = Some a → Q a) → P (KeyError key) → spec I Q P (getitem key o).
Proof. intros HQ HP. destruct o; [apply spec_mret; eauto | by apply spec_raise]. Qed.

Lemma spec_iter_set `{Countable A} (X : gset A) :
  spec I (λ l, l ≡ₚ elements X) P (iter_set X).
Proof. intros w w' evs res [= <- <- <-]. split; [done | apply set_order_perm]. Qed.

(** A request of the program: its events are named by the three
    hypotheses; the response is one the policy does not retry, and the
    exception a [RequestException]. *)
Lemma spec_Session_request s m url params timeout :
  let rq := {| rq_method := m; rq_url := url; rq_params := params;
               rq_headers := s_headers s; rq_timeout := timeout |} in
  I (EvCall rq) → (∀ ev, transport_event rq ev → I ev) → (∀ r, I (EvReply r)) →
  (∀ k, P (RequestException k)) →
  spec I (λ r, ∃ m' left, (m = GET → m' = GET) ∧
            is_retry (s_adapter s) left m' (status_code r) (has_retry_after r) = false)
    P (Session_request s m url params timeout).
Proof.
  intros rq Hcall Hmid Hreply HP w w' evs res
    (mid & -> & Hevs & Hres)%Session_request_run. split.
  - constructor; [done|]. apply Forall_app. split.
    + eapply Forall_impl; [exact Hevs | exact Hmid].
    + destruct res; by repeat constructor.
  - destruct res as [r|e]; [by destruct Hres|]. by destruct Hres as [k ->].
Qed.

Lemma spec_raise_for_status r :
  (400 ≤ status_code r < 600 → P (HTTPError (status_code r))) →
  spec I (λ _, ok r = true) P (raise_for_status r).
Proof.
  intros HP. unfold raise_for_status, ok.
  destruct (_ && _) eqn:Hs; [|by apply spec_mret].
  apply spec_raise, HP. lia.
Qed.

Lemma spec_Response_json r :
  P (RequestException JSONDecodeError) →
  spec I (λ b, json r = Some b) P (Response_json r).
Proof.
  intros HP. unfold Response_json.
  destruct (json r); [by apply spec_mret | by apply spec_raise].
Qed.
End spec.


(** ** The collector *)

Lemma range_empty step : step ≠ 0 → Py.range 0 0 step = Ok [].
Proof.
  intros Hstep. unfold Py.range.
  destruct (step =? 0) eqn:H0; [lia|].
  destruct (0 <? step) eqn:Hpos.
  - replace (0 - 0 + step - 1) with (step - 1) by lia.
    rewrite Z.div_small by lia. done.
  - replace (0 - 0 - step - 1) with (- step - 1) by lia.
    rewrite Z.div_small by lia. done.
Qed.

(** With a positive step, [range(0, n, step)] is the list of the multiples
    of [step] below [n], in ascending order. *)
Lemma range_multiples n step :
  0 < step →
  ∃ m : nat,
    Py.range 0 n step = Ok ((λ k : nat, Z.of_nat k * step) <$> seq 0 m) ∧
    ∀ k : nat, (k < m)%nat ↔ Z.of_nat k * step < n.
Proof.
  intros Hstep. unfold Py.range.
  destruct (step =? 0) eqn:H0; [lia|]. destruct (0 <? step) eqn:Hpos; [|lia].
  exists (Z.to_nat ((n - 0 + step - 1) / step)). split; [done|].
  intros k. set (q := (n - 0 + step - 1) / step).
  pose proof (Z.div_mod (n - 0 + step - 1) step ltac:(lia)) as Hdiv.
  pose proof (Z.mod_pos_bound (n - 0 + step - 1) step Hstep) as Hmod.
  fold q in Hdiv. split; intros Hk; nia.
Qed.

Section collector.
Context `{Env}.

Lemma raise_for_status_ok r w : ok r = true → raise_for_status r w = (w, [], Ok tt).
Proof.
  unfold ok, raise_for_status. by destruct (_ && _).
Qed.

(** An iteration over a set goes through its elements, once each. *)
Lemma iter_set_Ok `{Countable A} (X : gset A) w w' evs l :
  iter_set X w = (w', evs, Ok l) → l ≡ₚ elements X ∧ w' = w ∧ evs = [].
Proof. intros [= <- <- <-]. split; [apply set_order_perm | done]. Qed.

Lemma set_order_empty `{Countable A} w : set_order w A (∅ : gset A) = [].
Proof. apply Permutation_nil_r. by rewrite set_order_perm, elements_empty. Qed.

(** What the collector returns is the sort of the PMIDs it has read, each
    taken once. *)
Lemma esearch_all_pmids_Ok query chunk w w' evs out :
  esearch_all_pmids query chunk w = (w', evs, Ok out) →
  ∃ pmids unique,
    unique ≡ₚ elements (list_to_set pmids : gset string) ∧
    Py.sorted Py.int unique = Ok out.
Proof.
  unfold esearch_all_pmids. intros Hrun.
  io_inv Hrun as r Hget. io_inv Hrun as u Hstatus. io_inv Hrun as body Hbody.
  io_inv Hrun as er Her. io_inv Hrun as c Hc. io_inv Hrun as count Hcount.
  io_inv Hrun as starts Hstarts. io_inv Hrun as pmids Hloop.
  io_inv Hrun as unique Hunique. apply iter_set_Ok in Hunique as (Hperm & _ & _).
  apply lift_Ok in Hrun as [Hsorted _]. eauto.
Qed.

(** The run of the collector once the count probe has reported [n]. *)
Lemma esearch_all_pmids_counted query chunk w w1 ev1 r0 n :
  Session_get session EUTILS (count_params query) 60 w = (w1, ev1, Ok r0) →
  ok r0 = true → reported_count r0 = Some n →
  esearch_all_pmids query chunk w =
  match Py.range 0 n chunk with
  | Raise e => (w1, ev1, Raise e)
  | Ok starts =>
      match for_each (esearch_window session query chunk) [] starts w1 with
      | (w2, ev2, Ok pmids) =>
          (w2, ev1 ++ ev2,
           Py.sorted Py.int (set_order w2 string (list_to_set pmids : gset string)))
      | (w2, ev2, Raise e) => (w2, ev1 ++ ev2, Raise e)
      end
  end.
Proof.
  intros Hprobe Hok Hcount. unfold reported_count in Hcount.
  destruct (json r0) as [body|] eqn:Hjson; [|done]. simpl in Hcount.
  destruct (b_esearchresult body) as [er|] eqn:Her; [|done]. simpl in Hcount.
  destruct (er_count er) as [c|] eqn:Hc; [|done]. simpl in Hcount.
  destruct (Py.int c) as [n'|] eqn:Hint; [|done]. injection Hcount as ->.
  unfold esearch_all_pmids. rewrite bind_run, Hprobe.
  rewrite bind_run, (raise_for_status_ok _ _ Hok).
  unfold Response_json. rewrite Hjson.
  unfold getitem, lift, iter_set, mbind, IO_bind, mret, IO_ret.
  rewrite Her; cbn beta iota. rewrite Hc; cbn beta iota. rewrite Hint; cbn beta iota.
  destruct (Py.range 0 n chunk) as [starts|e]; [|by rewrite app_nil_r].
  destruct (for_each _ _ _ _) as [[w2 ev2] [pmids|e]]; by rewrite ?app_nil_r.
Qed.

(** One turn of the loop when the window is served. *)
Lemma esearch_window_served query chunk pmids start w w1 ev1 r ids :
  Session_get session EUTILS (window_params query chunk start) 60 w = (w1, ev1, Ok r) →
  ok r = true → window_ids r = Some ids →
  esearch_window session query chunk pmids start w =
  (w1, ev1 ++ [EvSleep 340], Ok (pmids ++ ids)).
Proof.
  intros Hget Hok Hids. unfold window_ids in Hids.
  destruct (json r) as [body|] eqn:Hjson; [|done]. simpl in Hids.
  destruct (b_esearchresult body) as [er|] eqn:Her; [|done].
  injection Hids as <-.
  unfold esearch_window. rewrite bind_run, Hget.
  rewrite bind_run, (raise_for_status_ok _ _ Hok).
  unfold Response_json. rewrite Hjson.
  unfold getitem, sleep, emit, mbind, IO_bind, mret, IO_ret.
  rewrite Her. reflexivity.
Qed.

Lemma windows_served query chunk starts pmids w :
  serves_windows query chunk →
  ∃ w' evs out,
    for_each (esearch_window session query chunk) pmids starts w = (w', evs, Ok out) ∧
    calls evs = (λ start, get_request session EUTILS (window_params query chunk start) 60) <$> starts.
Proof.
  intros Hserved. revert pmids w.
  induction starts as [|start starts IH]; intros pmids w; simpl.
  - by exists w, [], pmids.
  - destruct (Hserved w start) as (w1 & ev1 & r & Hget & Hok & [ids Hids]).
    rewrite bind_run, (esearch_window_served _ _ _ _ _ _ _ _ _ Hget Hok Hids).
    destruct (IH (pmids ++ ids) w1) as (w2 & ev2 & out & -> & Hcalls).
    eexists _, _, _. split; [done|].
    rewrite !calls_app, Hcalls. apply Session_get_calls in Hget as [-> _]. done.
Qed.

(** The requests of a run of the collector whose windows are served: the
    probe, then one request for each start of the range, in order. *)
Lemma esearch_all_pmids_windows query chunk w w1 ev1 r0 n starts :
  Session_get session EUTILS (count_params query) 60 w = (w1, ev1, Ok r0) →
  ok r0 = true → reported_count r0 = Some n →
  Py.range 0 n chunk = Ok starts →
  serves_windows query chunk →
  ∃ w' evs res,
    esearch_all_pmids query chunk w = (w', evs, res) ∧
    calls evs =
      get_request session EUTILS (count_params query) 60 ::
      ((λ start, get_request session EUTILS (window_params query chunk start) 60) <$> starts).
Proof.
  intros Hprobe Hok Hcount Hrange Hserved.
  rewrite (esearch_all_pmids_counted _ _ _ _ _ _ _ Hprobe Hok Hcount), Hrange.
  destruct (windows_served query chunk starts [] w1 Hserved)
    as (w2 & ev2 & pmids & -> & Hcalls).
  apply Session_get_calls in Hprobe as [Hprobe _].
  eexists _, _, _. split; [done|].
  by rewrite calls_app, Hprobe, Hcalls.
Qed.

(** C2: the sequence the collector returns has no duplicate PMID
    and is ascending by numeric value; it is strictly ascending when no two
    of its PMIDs spell the same number. *)
Theorem esearch_all_pmids_ascending query chunk w w' evs out :
  esearch_all_pmids query chunk w = (w', evs, Ok out) →
  NoDup out ∧ StronglySorted num_le out ∧
  ((∀ x y, x ∈ out → y ∈ out → Py.int x = Py.int y → x = y) → StronglySorted num_lt out).
Proof.
  intros (pmids & unique & Hunique & [Hperm Hsorted]%sorted_Ok)%esearch_all_pmids_Ok.
  assert (NoDup out) by (rewrite Hperm, Hunique; apply NoDup_elements).
  split_and!; [done..|]. intros Hinj. by apply key_le_strict.
Qed.

(** C4: when the count probe reports 25000 and the chunk size is 10000, the
    collector issues, after the probe, exactly three requests, with
    [retstart] 0, 10000 and 20000 in that order and [retmax] 10000. *)
Theorem esearch_all_pmids_three_windows query w w1 ev1 r0 :
  Session_get session EUTILS (count_params query) 60 w = (w1, ev1, Ok r0) →
  ok r0 = true → reported_count r0 = Some 25000 →
  serves_windows query 10000 →
  ∃ w' evs res,
    esearch_all_pmids query 10000 w = (w', evs, res) ∧
    calls evs =
      get_request session EUTILS (count_params query) 60 ::
      ((λ start, get_request session EUTILS (window_params query 10000 start) 60)
         <$> [0; 10000; 20000]) ∧
    (λ rq, (get_param "retstart" rq, get_param "retmax" rq)) <$> drop 1 (calls evs) =
      [(Some (PInt 0), Some (PInt 10000));
       (Some (PInt 10000), Some (PInt 10000));
       (Some (PInt 20000), Some (PInt 10000))].
Proof.
  intros Hprobe Hok Hcount Hserved.
  destruct (esearch_all_pmids_windows query 10000 w w1 ev1 r0 25000 [0; 10000; 20000])
    as (w' & evs & res & Hrun & Hcalls); [done..|].
  exists w', evs, res. split; [done|]. by rewrite Hcalls.
Qed.

(** C5: when the count probe reports 0, the collector returns the empty
    sequence and issues no request besides the probe. *)
Theorem esearch_all_pmids_no_match query chunk w w1 ev1 r0 :
  Session_get session EUTILS (count_params query) 60 w = (w1, ev1, Ok r0) →
  ok r0 = true → reported_count r0 = Some 0 →
  chunk ≠ 0 →
  esearch_all_pmids query chunk w = (w1, ev1, Ok []) ∧
  calls ev1 = [get_request session EUTILS (count_params query) 60].
Proof.
  intros Hprobe Hok Hcount Hchunk.
  rewrite (esearch_all_pmids_counted _ _ _ _ _ _ _ Hprobe Hok Hcount).
  rewrite range_empty by done. simpl. rewrite app_nil_r, set_order_empty.
  split; [done|]. by apply Session_get_calls in Hprobe as [-> _].
Qed.
End collector.

(** ** The concept filter *)

Lemma ann_count_nonneg doc : 0 ≤ ann_count doc.
Proof.
  unfold ann_count. generalize (default [] (d_passages doc)).
  intros ps. cut (∀ n, 0 ≤ n → 0 ≤ foldl (λ n p, n + Py.len (default [] (p_annotations p))) n ps).
  { intros Hn. by apply Hn. }
  induction ps as [|p ps IH]; intros n Hn; simpl; [done|].
  apply IH. unfold Py.len. lia.
Qed.

Lemma keep_documents_app keep docs1 docs2 :
  keep_documents keep (docs1 ++ docs2) = keep_documents (keep_documents keep docs1) docs2.
Proof. apply foldl_app. Qed.

(** An identifier is kept when it was kept before or comes with a document
    that has an annotation. *)
Lemma elem_of_keep_documents keep docs i :
  i ∈ keep_documents keep docs ↔
  i ∈ keep ∨ ∃ doc, doc ∈ docs ∧ d_id doc = i ∧ 0 < ann_count doc.
Proof.
  revert keep. induction docs as [|doc docs IH]; intros keep; simpl.
  - split; [by left|]. intros [?|(doc & Hin & _)]; [done|]. by apply elem_of_nil in Hin.
  - unfold keep_documents in *. simpl. rewrite IH. clear IH.
    destruct (0 <? ann_count doc) eqn:Hcount.
    + apply Z.ltb_lt in Hcount. rewrite elem_of_union, elem_of_singleton. split.
      * intros [[->|?]|(doc' & Hin & ? & ?)]; [right; exists doc | by left | right; exists doc'];
          split_and!; try done; by constructor.
      * intros [?|(doc' & [->|Hin]%elem_of_cons & Hid & ?)]; [by left; right | by left; left |].
        right. by exists doc'.
    + apply Z.ltb_ge in Hcount. split.
      * intros [?|(doc' & Hin & ? & ?)]; [by left|]. right. exists doc'.
        split_and!; try done. by constructor.
      * intros [?|(doc' & [->|Hin]%elem_of_cons & Hid & ?)]; [by left | lia |].
        right. by exists doc'.
Qed.

Lemma slice_subseteq {A} (l : list A) lo hi : Py.slice l lo hi ⊆ l.
Proof.
  unfold Py.slice. intros x Hx.
  apply elem_of_take in Hx as (i & Hx & _).
  rewrite lookup_drop in Hx. by eapply list_elem_of_lookup_2.
Qed.

Section filter.
Context `{Env}.

(** One turn of the loop that returns: the response handed back passed
    [raise_for_status], and its documents were gone through. *)
Lemma pubtator_batch_Ok pmids concepts page keep i w w' evs keep' :
  pubtator_batch session pmids concepts page keep i w = (w', evs, Ok keep') →
  ∃ r, replies evs = [r] ∧ ok r = true ∧ keep' = keep_documents keep (documents r).
Proof.
  unfold pubtator_batch. intros Hrun.
  io_inv Hrun as r Hget. apply Session_get_calls in Hget as [_ Hreplies].
  io_inv Hrun as u Hstatus. apply raise_for_status_Ok in Hstatus as (Hok & -> & ->).
  io_inv Hrun as data Hdata. apply Response_json_Ok in Hdata as (Hdata & -> & ->).
  io_inv Hrun as u' Hsleep. apply emit_Ok in Hsleep as (-> & ->).
  apply mret_Ok in Hrun as (-> & -> & ->).
  exists r. split_and!; [|done|].
  - by rewrite !replies_app, Hreplies.
  - unfold documents. by rewrite Hdata.
Qed.

Lemma pubtator_loop_Ok pmids concepts page starts keep w w' evs keep' :
  for_each (pubtator_batch session pmids concepts page) keep starts w = (w', evs, Ok keep') →
  keep' = keep_documents keep (processed evs).
Proof.
  revert keep w evs. induction starts as [|i starts IH]; intros keep w evs; simpl.
  - by intros (-> & -> & ->)%mret_Ok.
  - intros Hrun. io_inv Hrun as keep1 Hbatch.
    apply pubtator_batch_Ok in Hbatch as (r & Hreplies & _ & ->).
    apply IH in Hrun as ->. unfold processed.
    rewrite replies_app, bind_app, keep_documents_app, Hreplies. simpl.
    by rewrite app_nil_r.
Qed.

Lemma pubtator_has_concept_Ok pmids concepts page w w' evs keep :
  pubtator_has_concept pmids concepts page w = (w', evs, Ok keep) →
  ∀ i, i ∈ keep ↔ ∃ doc, doc ∈ processed evs ∧ d_id doc = i ∧ 0 < ann_count doc.
Proof.
  unfold pubtator_has_concept. intros Hrun i.
  io_inv Hrun as starts Hstarts. apply lift_Ok in Hstarts as (_ & -> & ->).
  apply pubtator_loop_Ok in Hrun as ->.
  rewrite elem_of_keep_documents. split; [|by right].
  intros [Hin|?]; [|done]. by apply not_elem_of_empty in Hin.
Qed.

(** When the service answers a batch only with documents of that batch,
    the filter returns PMIDs of its input. *)
Lemma pubtator_has_concept_subset_when_echoed pmids concepts page w w' evs keep :
  (∀ batch, spec (λ _, True)
     (λ r, ∀ doc, doc ∈ documents r → ∃ p, d_id doc = Some p ∧ p ∈ batch) (λ _, True)
     (Session_get session PT_EXPORT (export_params batch concepts) 120)) →
  pubtator_has_concept pmids concepts page w = (w', evs, Ok keep) →
  ∀ i, i ∈ keep → ∃ p, i = Some p ∧ p ∈ pmids.
Proof.
  intros Hecho Hrun.
  cut (spec (λ _, True) (λ keep : gset (option string), ∀ i, i ∈ keep → ∃ p, i = Some p ∧ p ∈ pmids)
         (λ _, True) (pubtator_has_concept pmids concepts page)).
  { intros Hspec. by apply Hspec in Hrun as [_ ?]. }
  unfold pubtator_has_concept.
  eapply spec_bind with (Q := λ _, True); [by apply spec_lift; case_match|].
  intros starts _. apply spec_for_each; [|by intros i ?%not_elem_of_empty].
  intros acc i _ Hacc. unfold pubtator_batch.
  eapply spec_bind; [apply Hecho|]. intros r Hr.
  eapply spec_bind; [by apply spec_raise_for_status|]. intros _ _.
  eapply spec_bind; [by apply spec_Response_json|]. intros data Hdata.
  eapply spec_bind with (Q := λ _, True); [by apply spec_emit|]. intros _ _.
  apply spec_mret. intros j [?|(doc & Hdoc & <- & _)]%elem_of_keep_documents; [by apply Hacc|].
  destruct (Hr doc) as (p & -> & Hp).
  { unfold documents. by rewrite Hdata. }
  exists p. split; [done|]. by eapply slice_subseteq.
Qed.

(** C3: an identifier is in the result iff some document the
    filter went through carries it and has an annotation in some passage. A
    document with an annotation has its identifier in the result; a document
    without has not, unless another document of the same identifier has
    one. *)
Theorem pubtator_has_concept_keeps pmids concepts page w w' evs keep :
  pubtator_has_concept pmids concepts page w = (w', evs, Ok keep) →
  (∀ i, i ∈ keep ↔ ∃ doc, doc ∈ processed evs ∧ d_id doc = i ∧ 0 < ann_count doc) ∧
  (∀ doc, doc ∈ processed evs → 0 < ann_count doc → d_id doc ∈ keep) ∧
  (∀ doc, doc ∈ processed evs → ann_count doc = 0 →
     (∀ doc', doc' ∈ processed evs → d_id doc' = d_id doc → ann_count doc' = 0) →
     d_id doc ∉ keep).
Proof.
  intros Hrun. pose proof (pubtator_has_concept_Ok _ _ _ _ _ _ _ Hrun) as Hkeep.
  split_and!; [done | |].
  - intros doc Hdoc Hcount. apply Hkeep. by exists doc.
  - intros doc Hdoc Hcount Hothers (doc' & Hdoc' & Hid & Hcount')%Hkeep.
    apply Hothers in Hid; [lia | done].
Qed.

(** C10: for the empty list of PMIDs the filter issues no request and
    returns the empty set, whatever the concepts. *)
Theorem pubtator_has_concept_nil concepts page w :
  page ≠ 0 →
  pubtator_has_concept [] concepts page w = (w, [], Ok ∅) ∧
  calls (pubtator_has_concept [] concepts page w).1.2 = [].
Proof.
  intros Hpage. unfold pubtator_has_concept.
  change (Py.len []) with 0. rewrite range_empty by done. done.
Qed.
End filter.

(** ** Determinism of the collector *)

Section oblivious.
Context `{Env}.

Lemma oblivious_mret {A} (a : A) : oblivious (mret a).
Proof. by intros w1 w2. Qed.

Lemma oblivious_raise {A} e : oblivious (raise e : IO A).
Proof. by intros w1 w2. Qed.

Lemma oblivious_lift {A} (r : result A) : oblivious (lift r).
Proof. by intros w1 w2. Qed.

Lemma oblivious_emit ev : oblivious (emit ev).
Proof. by intros w1 w2. Qed.

Lemma oblivious_bind {A B} (m : IO A) (f : A → IO B) :
  oblivious m → (∀ a, oblivious (f a)) → oblivious (m ≫= f).
Proof.
  intros Hm Hf w1 w2. rewrite !bind_run. specialize (Hm w1 w2).
  destruct (m w1) as [[w1' ev1] [a1|e1]], (m w2) as [[w2' ev2] [a2|e2]];
    injection Hm as -> Hm; try done; simplify_eq.
  - specialize (Hf a2 w1' w2').
    destruct (f a2 w1') as [[? ?] ?], (f a2 w2') as [[? ?] ?].
    by injection Hf as -> ->.
  - done.
Qed.

Lemma oblivious_for_each {A X} (body : A → X → IO A) acc xs :
  (∀ acc x, x ∈ xs → oblivious (body acc x)) → oblivious (for_each body acc xs).
Proof.
  revert acc. induction xs as [|x xs IH]; intros acc Hbody; simpl.
  - apply oblivious_mret.
  - apply oblivious_bind; [apply Hbody; by left|].
    intros acc'. apply IH. intros ???. apply Hbody. by right.
Qed.

Lemma oblivious_urlopen r left failed rq :
  settled rq → oblivious (urlopen r left failed rq).
Proof.
  intros Hrq. revert failed.
  induction left as [|left IH]; intros failed w1 w2; rewrite !urlopen_unfold;
    specialize (Hrq w1 w2);
    destruct (wire w1 rq) as [w1' a1], (wire w2 rq) as [w2' a2]; simpl in Hrq; subst a2.
  - by destruct (failed_attempt _ _ _ _).
  - destruct (failed_attempt _ _ _ _); [|done]. specialize (IH (S failed) w1' w2').
    destruct (urlopen r left (S failed) rq w1') as [[? ?] ?],
      (urlopen r left (S failed) rq w2') as [[? ?] ?].
    by injection IH as -> ->.
Qed.

(** The redirects of a GET are GETs with the same headers and timeout. *)
Lemma redirected_get s url params timeout resp url' :
  redirected (get_request s url params timeout) resp url' = get_request s url' [] timeout.
Proof. unfold redirected, get_request. simpl. by rewrite rebuild_method_GET. Qed.

Lemma oblivious_resolve_redirects s fuel url params timeout resp :
  (∀ url', settled (get_request s url' [] timeout)) →
  oblivious (resolve_redirects s fuel (get_request s url params timeout) resp).
Proof.
  intros Hhops. revert url params resp.
  induction fuel as [|fuel IH]; intros url params resp;
    cbn [resolve_redirects];
    destruct (get_redirect_target resp) as [url'|];
    try apply oblivious_mret; try apply oblivious_raise.
  cbv zeta. rewrite redirected_get.
  apply oblivious_bind; [apply oblivious_emit|]. intros _.
  apply oblivious_bind; [by apply oblivious_urlopen|]. intros resp'. apply IH.
Qed.

Lemma oblivious_Session_get s url params timeout :
  settled (get_request s url params timeout) →
  (∀ url', settled (get_request s url' [] timeout)) →
  oblivious (Session_get s url params timeout).
Proof.
  intros Hrq Hhops. unfold Session_get, Session_request.
  apply oblivious_bind; [apply oblivious_emit|]. intros _.
  apply oblivious_bind; [by apply oblivious_urlopen|]. intros resp.
  apply oblivious_bind; [by apply (oblivious_resolve_redirects s _ url params timeout)|].
  intros r. apply oblivious_bind; [apply oblivious_emit|]. intros _.
  apply oblivious_mret.
Qed.

Lemma oblivious_raise_for_status r : oblivious (raise_for_status r).
Proof. unfold raise_for_status. by destruct (_ && _). Qed.

Lemma oblivious_Response_json r : oblivious (Response_json r).
Proof. unfold Response_json. by destruct (json r). Qed.

Lemma oblivious_getitem {A} key (o : option A) : oblivious (getitem key o).
Proof. by destruct o. Qed.

(** What follows an oblivious computation decides how two runs compare. *)
Lemma steady_bind {A B} (R : relation B) (m : IO A) (f : A → IO B) :
  oblivious m → (∀ a, steady R (f a)) → steady R (m ≫= f).
Proof.
  intros Hm Hf w1 w2. rewrite !bind_run. specialize (Hm w1 w2).
  destruct (m w1) as [[w1' ev1] [a1|e1]], (m w2) as [[w2' ev2] [a2|e2]];
    injection Hm as -> Hm; try discriminate; simplify_eq.
  - specialize (Hf a2 w1' w2').
    destruct (f a2 w1') as [[? ?] ?], (f a2 w2') as [[? ?] ?].
    destruct Hf as [Hevs Hres]. simpl in *. by subst.
  - by split.
Qed.

(** Two sorts of the same set, gone through in two orders. *)
Lemma steady_sorted (X : gset string) :
  steady same_PMIDs (unique ← iter_set X; lift (Py.sorted Py.int unique)).
Proof.
  intros w1 w2. split; [done|]. simpl.
  pose proof (set_order_perm w1 string X) as Hperm1.
  pose proof (set_order_perm w2 string X) as Hperm2.
  destruct (Py.sorted Py.int (set_order w1 string X)) as [out1|e1] eqn:Hout1,
    (Py.sorted Py.int (set_order w2 string X)) as [out2|e2] eqn:Hout2.
  - pose proof Hout1 as [Hp1 Hs1]%sorted_Ok. pose proof Hout2 as [Hp2 Hs2]%sorted_Ok.
    assert (out1 ≡ₚ out2) as Hperm by by rewrite Hp1, Hp2, Hperm1, Hperm2.
    split_and!; [done..|]. intros Hinj.
    apply (StronglySorted_unique_strong num_le); [|done..].
    intros x1 x2 Hx1 Hx2 (a & b & Ha & Hb & Hab) (b' & a' & Hb' & Ha' & Hba).
    rewrite <- Hperm in Hx2. apply Hinj; [done..|].
    rewrite Ha, Hb in *. simplify_eq. f_equal. lia.
  - apply sorted_Raise in Hout2 as (x & Hx & Hkey).
    destruct (sorted_Ok_keys Py.int _ _ x Hout1) as [k Hk]; [|congruence].
    apply sorted_Ok in Hout1 as [Hp1 _]. by rewrite Hp1, Hperm1, <- Hperm2.
  - apply sorted_Raise in Hout1 as (x & Hx & Hkey).
    destruct (sorted_Ok_keys Py.int _ _ x Hout2) as [k Hk]; [|congruence].
    apply sorted_Ok in Hout2 as [Hp2 _]. by rewrite Hp2, Hperm2, <- Hperm1.
  - apply sorted_Raise in Hout1 as (? & _ & ->%int_Raise).
    by apply sorted_Raise in Hout2 as (? & _ & ->%int_Raise).
Qed.

(** C9: two runs of the collector with the same query and chunk size, from
    any two states of a world whose answers to the count probe, to the
    window requests and at the targets of redirects are settled, perform the
    same requests and end alike: with the same exception, or with the same
    PMIDs in ascending numeric order, which are the same sequence when no
    two of them spell the same number. *)
Theorem esearch_all_pmids_deterministic query chunk w1 w2 :
  settled (get_request session EUTILS (count_params query) 60) →
  (∀ start, settled (get_request session EUTILS (window_params query chunk start) 60)) →
  (∀ url, settled (get_request session url [] 60)) →
  (esearch_all_pmids query chunk w1).1.2 = (esearch_all_pmids query chunk w2).1.2 ∧
  match (esearch_all_pmids query chunk w1).2, (esearch_all_pmids query chunk w2).2 with
  | Ok out1, Ok out2 =>
      out1 ≡ₚ out2 ∧ StronglySorted num_le out1 ∧ StronglySorted num_le out2 ∧
      ((∀ x y, x ∈ out1 → y ∈ out1 → Py.int x = Py.int y → x = y) → out1 = out2)
  | Raise e1, Raise e2 => e1 = e2
  | _, _ => False
  end.
Proof.
  intros Hprobe Hwindows Hhops.
  cut (steady same_PMIDs (esearch_all_pmids query chunk)).
  { intros Hrun. exact (Hrun w1 w2). }
  unfold esearch_all_pmids.
  apply steady_bind; [by apply oblivious_Session_get|]. intros r.
  apply steady_bind; [apply oblivious_raise_for_status|]. intros _.
  apply steady_bind; [apply oblivious_Response_json|]. intros body.
  apply steady_bind; [apply oblivious_getitem|]. intros er.
  apply steady_bind; [apply oblivious_getitem|]. intros c.
  apply steady_bind; [apply oblivious_lift|]. intros count.
  apply steady_bind; [apply oblivious_lift|]. intros starts.
  apply steady_bind; [|intros; apply steady_sorted].
  apply oblivious_for_each. intros pmids start _. unfold esearch_window.
  apply oblivious_bind; [by apply oblivious_Session_get|]. intros r'.
  apply oblivious_bind; [apply oblivious_raise_for_status|]. intros _.
  apply oblivious_bind; [apply oblivious_Response_json|]. intros body'.
  apply oblivious_bind; [apply oblivious_getitem|]. intros er'.
  apply oblivious_bind; [apply oblivious_emit|]. intros _.
  apply oblivious_mret.
Qed.
End oblivious.

(** ** The session *)

Lemma not_retried_status r left m status has_retry_after :
  is_retry r left m status has_retry_after = false →
  m ∈ allowed_methods r → status ∉ status_forcelist r.
Proof.
  unfold is_retry, is_method_retryable. intros Hretry Hm Hstatus.
  rewrite bool_decide_eq_true_2 in Hretry by done.
  rewrite (bool_decide_eq_true_2 (status ∈ _)) in Hretry by done. done.
Qed.



(** The answers after which the session does not hand a response back. *)
Lemma failed_attempt_session left rq a :
  failed_attempt (s_adapter session) left rq a =
  match a with
  | inl err => is_connection_error err || bool_decide (rq_method rq = GET)
  | inr resp =>
      bool_decide (rq_method rq = GET) &&
      (bool_decide (status_code resp ∈ [429; 500; 502; 503; 504])
       || (bool_decide (left ≠ 0%nat) && bool_decide (status_code resp = 413)
           && has_retry_after resp))
  end.
Proof.
  destruct a as [err|resp]; simpl; unfold is_retry, is_method_retryable; simpl.
  - f_equal. apply bool_decide_ext. rewrite list_elem_of_singleton. done.
  - f_equal; [apply bool_decide_ext; by rewrite list_elem_of_singleton|].
    destruct (bool_decide (status_code resp ∈ [429; 500; 502; 503; 504])) eqn:Hforce; [done|].
    simpl. destruct (bool_decide (left ≠ 0%nat)); [|done]. simpl.
    destruct (has_retry_after resp); simpl; [|by rewrite andb_false_r].
    rewrite !andb_true_r. apply bool_decide_ext.
    rewrite bool_decide_eq_false in Hforce. unfold RETRY_AFTER_STATUS_CODES.
    rewrite !elem_of_cons, elem_of_nil in *. tauto.
Qed.

Section session.
Context `{Env}.


End session.

(** ** The driver *)

Lemma normalize_concepts_filter s :
  normalize_concepts s = filter (λ c, c ≠ "") (Py.strip <$> Py.split "," s).
Proof.
  unfold normalize_concepts. induction (Py.split "," s) as [|piece pieces IH]; [done|].
  rewrite fmap_cons, !filter_cons, <- IH.
  destruct (Py.strip piece) eqn:Hpiece; simpl; repeat case_decide; try done.
  by rewrite Hpiece.
Qed.

Lemma int_of_id_Raise x e : int_of_id x = Raise e → e = ValueError ∨ e = TypeError.
Proof.
  destruct x as [s|]; simpl; [intros ?%int_Raise; by left | intros [= <-]; by right].
Qed.

Lemma calls_Forall url evs :
  Forall (calls_only url) evs → Forall (λ rq, rq_url rq = url) (calls evs).
Proof.
  induction 1 as [|ev evs Hev _ IH]; [constructor|].
  destruct ev; try done. change (calls (EvCall rq :: evs)) with (rq :: calls evs).
  constructor; [by apply Hev | done].
Qed.



Section driver.
Context `{Env}.

Lemma unretried_status_other e : (∀ status, e ≠ HTTPError status) → unretried_status e.
Proof. intros He status ->. by destruct (He status). Qed.

(** [r = s.get(url, ...); r.raise_for_status()] followed by [k r]. *)
Lemma spec_get_then {B} url params timeout (k : Response → IO B) (Q : B → Prop) :
  (∀ r, spec (request_event url) Q unretried_status (k r)) →
  spec (request_event url) Q unretried_status
    (r ← Session_get session url params timeout; raise_for_status r;; k r).
Proof.
  intros Hk. eapply spec_bind.
  { apply spec_Session_request.
    - split; [done|]. by intros rq [= <-].
    - intros ev Hev. split; [destruct ev; simpl in *; done | intros rq ->; simpl in *; done].
    - intros r. split; [done|]. by intros rq.
    - intros k'. by apply unretried_status_other. }
  intros r (m & left & Hm & Hretry). rewrite (Hm eq_refl) in Hretry.
  eapply spec_bind; [|intros _ _; apply Hk].
  apply spec_raise_for_status. intros Hstatus status [= <-]. split; [done|].
  eapply not_retried_status; [done | by left].
Qed.

Lemma spec_builtin {A} url (r : result A) :
  (∀ e, r = Raise e → ∀ status, e ≠ HTTPError status) →
  spec (request_event url) (λ _, True) unretried_status (lift r).
Proof.
  intros Hr. apply spec_lift. destruct r as [a|e]; [done|].
  by apply unretried_status_other, Hr.
Qed.

Lemma spec_json_then {B} url r (k : Body → IO B) (Q : B → Prop) :
  (∀ body, spec (request_event url) Q unretried_status (k body)) →
  spec (request_event url) Q unretried_status (body ← Response_json r; k body).
Proof.
  intros Hk. eapply spec_bind; [|intros body _; apply Hk].
  by apply spec_Response_json, unretried_status_other.
Qed.

Lemma spec_sleep_then {B} url ms (k : IO B) (Q : B → Prop) :
  spec (request_event url) Q unretried_status k →
  spec (request_event url) Q unretried_status (sleep ms;; k).
Proof.
  intros Hk. eapply spec_bind with (Q := λ _, True); [|by intros _ _].
  apply spec_emit; [|done]. split; [done|]. by intros rq.
Qed.

Lemma spec_esearch_all_pmids query chunk :
  spec (request_event EUTILS) (λ _, True) unretried_status (esearch_all_pmids query chunk).
Proof.
  unfold esearch_all_pmids. apply spec_get_then. intros r.
  apply spec_json_then. intros body.
  eapply spec_bind with (Q := λ _, True); [by apply spec_getitem, unretried_status_other|].
  intros er _.
  eapply spec_bind with (Q := λ _, True); [by apply spec_getitem, unretried_status_other|].
  intros c _. eapply spec_bind with (Q := λ _, True).
  { apply spec_builtin. by intros e ->%int_Raise. }
  intros count _. eapply spec_bind with (Q := λ _, True).
  { apply spec_builtin. by intros e ->%range_Raise. }
  intros starts _. eapply spec_bind with (Q := λ _, True).
  - apply spec_for_each; [|done]. intros pmids start _ _. unfold esearch_window.
    apply spec_get_then. intros r'. apply spec_json_then. intros body'.
    eapply spec_bind with (Q := λ _, True); [by apply spec_getitem, unretried_status_other|].
    intros er' _. apply spec_sleep_then. by apply spec_mret.
  - intros pmids _. eapply spec_bind; [apply spec_iter_set|].
    intros unique _. apply spec_builtin.
    by intros e (x & _ & ->%int_Raise)%sorted_Raise.
Qed.



(** Without concepts the body of the [try] block is the collector. *)
Lemma pipeline_unfiltered args w :
  Py.strip (concepts args) = "" →
  pipeline args w = esearch_all_pmids (keyword args) 10000 w.
Proof.
  intros Hblank. unfold pipeline. rewrite Hblank. simpl. rewrite bind_run.
  destruct (esearch_all_pmids _ _ _) as [[w1 evs] [pmids|e]]; [|done].
  simpl. by rewrite app_nil_r.
Qed.

Lemma for_each_emit {X} (f : X → event) (xs : list X) w :
  for_each (λ _ x, emit (f x)) tt xs w = (w, f <$> xs, Ok tt).
Proof.
  induction xs as [|x xs IH]; [done|].
  simpl. rewrite bind_run. simpl. by rewrite IH.
Qed.


Lemma output_calls args pmids w : calls (output args pmids w).1.2 = [].
Proof.
  unfold output. destruct (Py.truthy (out args)).
  - rewrite bind_run. unfold open_for_writing.
    destruct (open_w w (out args)) as [w1 [|]]; [|done].
    rewrite bind_run, for_each_emit. simpl. rewrite calls_app.
    by induction pmids.
  - rewrite bind_run, for_each_emit. simpl. rewrite calls_app.
    by induction pmids.
Qed.


End driver.

(** ** Runs against the services above *)

(** C1: a service that answers a request for PMID 1 with an annotated
    document 999 makes the filter return 999, which is not in its input. *)
Theorem pubtator_has_concept_foreign_document :
  ∃ w' evs keep,
    @pubtator_has_concept pubtator_foreign ["1"] ["disease"] 1000 0%nat = (w', evs, Ok keep) ∧
    Some "999" ∈ keep ∧ "999" ∉ ["1"].
Proof.
  eexists _, _, (keep_documents ∅ [annotated "999" 1]). split; [reflexivity|]. split.
  - apply elem_of_keep_documents. right. exists (annotated "999" 1).
    split_and!; [by left | done | by vm_compute].
  - by intros [?|?%elem_of_nil]%elem_of_cons.
Qed.

Lemma esearch_all_pmids_not_strict :
  ∃ w' evs out,
    @esearch_all_pmids pubmed_leading_zero "alkaptonuria" 10000 0%nat = (w', evs, Ok out) ∧
    ¬ StronglySorted num_lt out.
Proof.
  eexists _, _, _. split; [vm_compute; reflexivity|].
  intros Hsorted. apply StronglySorted_inv in Hsorted as [_ Hall].
  apply Forall_cons in Hall as [(a & b & Ha & Hb & Hlt) _].
  vm_compute in Ha, Hb. simplify_eq. lia.
Qed.

Lemma esearch_all_pmids_ascending_witness :
  ∃ w' evs,
    @esearch_all_pmids pubmed_25000 "alkaptonuria" 10000 0%nat =
      (w', evs, Ok ["1"; "2"; "10001"; "10002"; "20001"; "20002"]) ∧
    NoDup ["1"; "2"; "10001"; "10002"; "20001"; "20002"] ∧
    StronglySorted num_le ["1"; "2"; "10001"; "10002"; "20001"; "20002"] ∧
    StronglySorted num_lt ["1"; "2"; "10001"; "10002"; "20001"; "20002"].
Proof.
  eexists _, _. split; [vm_compute; reflexivity|].
  edestruct (@esearch_all_pmids_ascending pubmed_25000 "alkaptonuria" 10000 0%nat)
    as (Hnodup & Hsorted & Hstrict).
  { vm_compute. reflexivity. }
  split; [exact Hnodup|]. split; [exact Hsorted|]. apply Hstrict.
  intros x y Hx Hy. rewrite !elem_of_cons, elem_of_nil in Hx, Hy.
  destruct Hx as [->|[->|[->|[->|[->|[->|[]]]]]]];
    destruct Hy as [->|[->|[->|[->|[->|[->|[]]]]]]]; vm_compute; congruence.
Defined.

Lemma pubtator_has_concept_same_identifier :
  ∃ w' evs keep doc,
    @pubtator_has_concept pubtator_twice ["1"] ["disease"] 1000 0%nat = (w', evs, Ok keep) ∧
    doc ∈ processed evs ∧ ann_count doc = 0 ∧ d_id doc ∈ keep.
Proof.
  eexists _, _, (keep_documents ∅ [annotated "1" 1; annotated "1" 0]), (annotated "1" 0).
  split; [reflexivity|]. split_and!.
  - right. left.
  - reflexivity.
  - apply elem_of_keep_documents. right. exists (annotated "1" 1).
    split_and!; [by left | done | by vm_compute].
Qed.

Lemma pubtator_has_concept_keeps_witness :
  ∃ w' evs keep,
    @pubtator_has_concept both_services ["9"; "10"] ["disease"] 1000 0%nat = (w', evs, Ok keep) ∧
    (∀ i, i ∈ keep ↔ ∃ doc, doc ∈ processed evs ∧ d_id doc = i ∧ 0 < ann_count doc) ∧
    (∀ doc, doc ∈ processed evs → 0 < ann_count doc → d_id doc ∈ keep) ∧
    (∀ doc, doc ∈ processed evs → ann_count doc = 0 →
       (∀ doc', doc' ∈ processed evs → d_id doc' = d_id doc → ann_count doc' = 0) →
       d_id doc ∉ keep).
Proof.
  eexists _, _, _. split; [reflexivity|].
  eapply (@pubtator_has_concept_keeps both_services ["9"; "10"] ["disease"] 1000 0%nat).
  reflexivity.
Defined.

Lemma esearch_all_pmids_three_windows_witness :
  ∃ w' evs res,
    @esearch_all_pmids pubmed_25000 "alkaptonuria" 10000 0%nat = (w', evs, res) ∧
    calls evs =
      get_request session EUTILS (count_params "alkaptonuria") 60 ::
      ((λ start, get_request session EUTILS (window_params "alkaptonuria" 10000 start) 60)
         <$> [0; 10000; 20000]) ∧
    (λ rq, (get_param "retstart" rq, get_param "retmax" rq)) <$> drop 1 (calls evs) =
      [(Some (PInt 0), Some (PInt 10000));
       (Some (PInt 10000), Some (PInt 10000));
       (Some (PInt 20000), Some (PInt 10000))].
Proof.
  eapply (@esearch_all_pmids_three_windows pubmed_25000 "alkaptonuria" 0%nat).
  - vm_compute. reflexivity.
  - reflexivity.
  - reflexivity.
  - intros w start. eexists _, _, _. split_and!; [reflexivity | reflexivity | by eexists].
Defined.

Lemma esearch_all_pmids_no_match_witness :
  ∃ w1 ev1,
    @esearch_all_pmids pubmed_empty "alkaptonuria" 10000 0%nat = (w1, ev1, Ok []) ∧
    calls ev1 = [get_request session EUTILS (count_params "alkaptonuria") 60].
Proof.
  eexists _, _.
  eapply (@esearch_all_pmids_no_match pubmed_empty "alkaptonuria" 10000 0%nat).
  - vm_compute. reflexivity.
  - reflexivity.
  - reflexivity.
  - lia.
Defined.

Lemma esearch_all_pmids_deterministic_witness :
  (@esearch_all_pmids pubmed_25000 "alkaptonuria" 10000 0%nat).1.2 =
  (@esearch_all_pmids pubmed_25000 "alkaptonuria" 10000 7%nat).1.2 ∧
  match (@esearch_all_pmids pubmed_25000 "alkaptonuria" 10000 0%nat).2,
        (@esearch_all_pmids pubmed_25000 "alkaptonuria" 10000 7%nat).2 with
  | Ok out1, Ok out2 =>
      out1 ≡ₚ out2 ∧ StronglySorted num_le out1 ∧ StronglySorted num_le out2 ∧
      ((∀ x y, x ∈ out1 → y ∈ out1 → Py.int x = Py.int y → x = y) → out1 = out2)
  | Raise e1, Raise e2 => e1 = e2
  | _, _ => False
  end.
Proof.
  apply (@esearch_all_pmids_deterministic pubmed_25000 "alkaptonuria" 10000 0%nat 7%nat).
  - intros w1 w2. reflexivity.
  - intros start w1 w2. reflexivity.
  - intros url w1 w2. reflexivity.
Defined.

(** Two processes that iterate over a set in different orders, against the
    same answers: the two runs return the two spellings of 7 in different
    orders. *)
Lemma esearch_all_pmids_order_varies :
  (∀ rq w1 w2, (@wire pubmed_two_orders w1 rq).2 = (@wire pubmed_two_orders w2 rq).2) ∧
  ∃ out1 out2,
    (@esearch_all_pmids pubmed_two_orders "alkaptonuria" 10000 (false, 0%nat)).2 = Ok out1 ∧
    (@esearch_all_pmids pubmed_two_orders "alkaptonuria" 10000 (true, 0%nat)).2 = Ok out2 ∧
    out1 ≠ out2.
Proof.
  split; [done|]. eexists _, _.
  split; [vm_compute; reflexivity|]. split; [vm_compute; reflexivity|]. done.
Qed.

Lemma pubtator_has_concept_nil_witness :
  @pubtator_has_concept pubtator_foreign [] ["disease"; "chemical"] 1000 0%nat = (0%nat, [], Ok ∅) ∧
  calls (@pubtator_has_concept pubtator_foreign [] ["disease"; "chemical"] 1000 0%nat).1.2 = [].
Proof.
  apply (@pubtator_has_concept_nil pubtator_foreign ["disease"; "chemical"] 1000 0%nat). lia.
Defined.



(** A service that asks for a delay is given it, instead of the backoff. *)
Example session_busy_waits :
  waits (@Session_get busy session EUTILS (count_params "alkaptonuria") 60 0%nat).1.2
    = [3000; 3000].
Proof. reflexivity. Qed.

(** When every attempt fails, the waits before the third to the sixth are
    of one, two, four and eight seconds. *)
Example session_unavailable_waits :
  waits (@Session_get unavailable session EUTILS (count_params "alkaptonuria") 60 0%nat).1.2
    = [1000; 2000; 4000; 8000].
Proof. reflexivity. Qed.

(** A redirect is followed: the second attempt goes to the new address,
    without parameters, and its answer is handed back. *)
Example session_moved_follows :
  let run := @Session_get moved session EUTILS (count_params "alkaptonuria") 60 0%nat in
  sends run.1.2 =
    [get_request session EUTILS (count_params "alkaptonuria") 60;
     get_request session "https://eutils.example/esearch" [] 60] ∧
  run.2 = Ok (response_200 (esearch_body "0" [])).
Proof. split; reflexivity. Qed.

(** Thirty redirects are followed, the next one is not. *)
Example session_circular_gives_up :
  let run := @Session_get circular session EUTILS (count_params "alkaptonuria") 60 0%nat in
  length (sends run.1.2) = 31%nat ∧ run.2 = Raise (RequestException TooManyRedirects).
Proof. split; reflexivity. Qed.

(** A status outside the retry list is handed back after one attempt. *)
Example session_not_found_single_attempt :
  ∃ w' evs,
    @Session_get not_found session EUTILS (count_params "alkaptonuria") 60 0%nat =
      (w', evs, Ok (response_status 404)) ∧
    length (sends evs) = 1%nat.
Proof. eexists _, _. split; [vm_compute; reflexivity | done]. Qed.



(** On success the exit status is 0: the PMIDs are printed, and their number
    goes to the error stream. *)
Example main_success :
  let run := @main both_services
    {| keyword := "alkaptonuria"; concepts := " disease , chemical ,"; out := "" |} 0%nat in
  printed run.1.2 = ["9"] ∧ stderr run.1.2 = [nl +:+ "Total PMIDs: 1" +:+ nl] ∧
  exit_status run.2 = 0.
Proof. intros run. split_and!; by vm_compute. Qed.

(** * Further properties *)

(** ** Runs of the collector *)

Lemma range_against start stop step :
  (0 < step ∧ stop ≤ start) ∨ (step < 0 ∧ start ≤ stop) →
  Py.range start stop step = Ok [].
Proof.
  intros Hdir. unfold Py.range. destruct (step =? 0) eqn:H0; [lia|].
  destruct (0 <? step) eqn:Hpos.
  - assert ((stop - start + step - 1) / step ≤ 0) as Hn.
    { apply Z.lt_succ_r, Z.div_lt_upper_bound; lia. }
    by replace (Z.to_nat _) with 0%nat by lia.
  - assert ((start - stop - step - 1) / - step ≤ 0) as Hn.
    { apply Z.lt_succ_r, Z.div_lt_upper_bound; lia. }
    by replace (Z.to_nat _) with 0%nat by lia.
Qed.

Section collector_runs.
Context `{Env}.

(** One turn of the loop of the collector, whatever the answer. *)
Lemma esearch_window_run query chunk pmids start w :
  esearch_window session query chunk pmids start w =
  match Session_get session EUTILS (window_params query chunk start) 60 w with
  | (w1, ev1, Raise e) => (w1, ev1, Raise e)
  | (w1, ev1, Ok r) =>
      match unreadable r with
      | Some e => (w1, ev1, Raise e)
      | None => (w1, ev1 ++ [EvSleep 340], Ok (pmids ++ ids_of r))
      end
  end.
Proof.
  unfold esearch_window. rewrite bind_run.
  destruct (Session_get _ _ _ _ _) as [[w1 ev1] [r|e]]; [|done].
  unfold unreadable, ids_of, window_ids, ok, raise_for_status, Response_json,
    getitem, sleep, emit, raise, mbind, IO_bind, mret, IO_ret.
  destruct (_ && _); simpl; [by rewrite app_nil_r|].
  destruct (json r) as [body|]; simpl; [|by rewrite app_nil_r].
  destruct (b_esearchresult body) as [er|]; simpl; by rewrite ?app_nil_r.
Qed.

(** The loop of the collector: the windows are requested in order, up to
    the first that fails. *)
Lemma windows_calls query chunk starts pmids w w' evs res :
  for_each (esearch_window session query chunk) pmids starts w = (w', evs, res) →
  ∃ k, (k ≤ length starts)%nat ∧
    calls evs = window_request query chunk <$> take k starts ∧
    (∀ out, res = Ok out → k = length starts).
Proof.
  revert pmids w evs. induction starts as [|start starts IH]; intros pmids w evs; simpl.
  - intros [= <- <- <-]. exists 0%nat. by split_and!.
  - rewrite bind_run, esearch_window_run.
    destruct (Session_get _ _ _ _ _) as [[w1 ev1] [r|e]] eqn:Hget;
      apply Session_get_calls in Hget as [Hcalls _].
    + destruct (unreadable r) as [e|].
      * intros [= <- <- <-]. exists 1%nat. split_and!; [lia | done | done].
      * destruct (for_each _ _ _ _) as [[w2 ev2] res2] eqn:Hloop.
        intros [= <- <- <-]. apply IH in Hloop as (k & Hk & Hcalls2 & Hres).
        exists (S k). split_and!; [lia | | intros out Hout; f_equal; eauto].
        by rewrite !calls_app, Hcalls, Hcalls2.
    + intros [= <- <- <-]. exists 1%nat. split_and!; [lia | done | done].
Qed.

(** The loop of the collector when it returns: every identifier of every
    response is appended, and every request is followed by a pause. *)
Lemma windows_Ok query chunk starts pmids w w' evs out :
  for_each (esearch_window session query chunk) pmids starts w = (w', evs, Ok out) →
  out = pmids ++ (replies evs ≫= ids_of) ∧
  length (replies evs) = length starts ∧
  paced evs = starts ≫= (λ start, [inl (window_request query chunk start); inr 340]).
Proof.
  revert pmids w evs. induction starts as [|start starts IH]; intros pmids w evs; simpl.
  - intros [= <- <- <-]. by rewrite app_nil_r.
  - rewrite bind_run, esearch_window_run.
    destruct (Session_get _ _ _ _ _) as [[w1 ev1] [r|e]] eqn:Hget; [|done].
    destruct (unreadable r) as [e|]; [done|].
    destruct (for_each _ _ _ _) as [[w2 ev2] [out2|e]] eqn:Hloop; [|done].
    intros [= <- <- <-]. apply IH in Hloop as (-> & Hlen & Hpaced).
    pose proof (Session_get_paced _ _ _ _ _ _ _ _ Hget) as Hpaced1.
    apply Session_get_calls in Hget as [_ Hreplies].
    rewrite !replies_app, !paced_app, Hreplies, Hpaced1, Hpaced. simpl.
    rewrite Hlen. split_and!; [|done..].
    by rewrite <- (assoc_L (++)).
Qed.

(** The run of the collector, whatever the answer to the probe. *)
Lemma esearch_all_pmids_run query chunk w :
  esearch_all_pmids query chunk w =
  match Session_get session EUTILS (count_params query) 60 w with
  | (w1, ev1, Raise e) => (w1, ev1, Raise e)
  | (w1, ev1, Ok r0) =>
      match unreadable r0 with
      | Some e => (w1, ev1, Raise e)
      | None =>
          match reported_count r0 with
          | None =>
              (w1, ev1, Raise
                 match count_text r0 with
                 | None => KeyError "count"
                 | Some _ => ValueError
                 end)
          | Some n =>
              match Py.range 0 n chunk with
              | Raise e => (w1, ev1, Raise e)
              | Ok starts =>
                  match for_each (esearch_window session query chunk) [] starts w1 with
                  | (w2, ev2, Ok pmids) =>
                      (w2, ev1 ++ ev2,
                       Py.sorted Py.int (set_order w2 string (list_to_set pmids : gset string)))
                  | (w2, ev2, Raise e) => (w2, ev1 ++ ev2, Raise e)
                  end
              end
          end
      end
  end.
Proof.
  destruct (Session_get _ _ _ _ _) as [[w1 ev1] [r0|e]] eqn:Hget.
  - destruct (unreadable r0) as [e|] eqn:Hread.
    + unfold esearch_all_pmids. rewrite bind_run, Hget.
      unfold unreadable, ok, raise_for_status, Response_json, getitem, raise,
        mbind, IO_bind, mret, IO_ret in *.
      destruct (_ && _); simpl in *; [by simplify_eq; rewrite app_nil_r|].
      destruct (json r0) as [body|]; simpl in *; [|by simplify_eq; rewrite app_nil_r].
      destruct (b_esearchresult body) as [er|]; simpl in *; by simplify_eq; rewrite ?app_nil_r.
    + assert (ok r0 = true) as Hok.
      { unfold unreadable in Hread. by destruct (ok r0). }
      destruct (reported_count r0) as [n|] eqn:Hcount.
      { by rewrite (esearch_all_pmids_counted _ _ _ _ _ _ _ Hget Hok Hcount). }
      unfold esearch_all_pmids. rewrite bind_run, Hget.
      rewrite bind_run, (raise_for_status_ok _ _ Hok).
      unfold unreadable, reported_count, count_text in *. rewrite Hok in Hread.
      unfold Response_json, getitem, lift, raise, mbind, IO_bind, mret, IO_ret.
      destruct (json r0) as [body|]; simpl in *; [|done].
      destruct (b_esearchresult body) as [er|]; simpl in *; [|done].
      destruct (er_count er) as [c|]; simpl in *; [|by rewrite app_nil_r].
      destruct (Py.int c) as [n|e] eqn:Hint; [done|].
      apply int_Raise in Hint as ->. by rewrite app_nil_r.
  - unfold esearch_all_pmids. by rewrite bind_run, Hget.
Qed.
End collector_runs.

Section collector_properties.
Context `{Env}.

(** After a probe that reports [n], the collector asks for the windows that
    start at the multiples of a positive [chunk] below [n], in ascending
    order and without gap, and stops at the first that fails. *)
Theorem esearch_all_pmids_requests query chunk w w1 ev1 r0 n w' evs res :
  0 < chunk →
  Session_get session EUTILS (count_params query) 60 w = (w1, ev1, Ok r0) →
  ok r0 = true → reported_count r0 = Some n →
  esearch_all_pmids query chunk w = (w', evs, res) →
  ∃ k : nat,
    calls evs =
      get_request session EUTILS (count_params query) 60 ::
      ((λ j : nat, window_request query chunk (Z.of_nat j * chunk)) <$> seq 0 k) ∧
    (∀ j : nat, (j < k)%nat → Z.of_nat j * chunk < n) ∧
    (∀ out, res = Ok out → ∀ j : nat, Z.of_nat j * chunk < n → (j < k)%nat).
Proof.
  intros Hchunk Hprobe Hok Hcount.
  rewrite (esearch_all_pmids_counted _ _ _ _ _ _ _ Hprobe Hok Hcount).
  destruct (range_multiples n chunk Hchunk) as (m & -> & Hm).
  apply Session_get_calls in Hprobe as [Hprobe _].
  destruct (for_each _ _ _ _) as [[w2 ev2] res2] eqn:Hloop.
  apply windows_calls in Hloop as (k & Hk & Hcalls & Hall).
  rewrite length_fmap, length_seq in Hk, Hall.
  assert (calls (ev1 ++ ev2) =
    get_request session EUTILS (count_params query) 60 ::
    ((λ j : nat, window_request query chunk (Z.of_nat j * chunk)) <$> seq 0 k)) as Hrun.
  { rewrite calls_app, Hprobe, Hcalls, <- fmap_take, take_seq, Nat.min_l by lia.
    by rewrite <- list_fmap_compose. }
  destruct res2 as [pmids|e]; intros [= <- <- <-]; exists k; (split_and!; [done | |]).
  - intros j Hj. apply Hm. lia.
  - intros out _ j Hj. rewrite (Hall pmids eq_refl). by apply Hm.
  - intros j Hj. apply Hm. lia.
  - by intros out [=].
Qed.

(** The sequence the collector returns consists of the identifiers of the
    responses to the window requests, those of the probe left aside, and
    [int] accepts every one of them. *)
Theorem esearch_all_pmids_collects query chunk w w' evs out :
  esearch_all_pmids query chunk w = (w', evs, Ok out) →
  (∀ x, x ∈ out ↔ ∃ r, r ∈ drop 1 (replies evs) ∧ x ∈ ids_of r) ∧
  (∀ x, x ∈ out → ∃ n, Py.int x = Ok n).
Proof.
  rewrite esearch_all_pmids_run.
  destruct (Session_get _ _ _ _ _) as [[w1 ev1] [r0|e]] eqn:Hprobe; [|done].
  apply Session_get_calls in Hprobe as [_ Hreplies].
  destruct (unreadable r0); [done|]. destruct (reported_count r0) as [n|]; [|done].
  destruct (Py.range 0 n chunk) as [starts|e]; [|done].
  destruct (for_each _ _ _ _) as [[w2 ev2] [pmids|e]] eqn:Hloop; [|done].
  intros [= <- <- Hsorted]. apply windows_Ok in Hloop as (-> & _ & _). split.
  - intros x. destruct (sorted_Ok _ _ _ Hsorted) as [Hperm _].
    rewrite Hperm, set_order_perm, elem_of_elements, elem_of_list_to_set, replies_app, Hreplies.
    simpl.
    rewrite list_elem_of_bind. split; intros (r & ? & ?); by exists r.
  - intros x Hx. by eapply sorted_Ok_keys.
Qed.

(** A probe whose answer passes [raise_for_status] but has no count the
    collector can read ends the run with the error of the first thing that
    is missing, and no window is requested. *)
Theorem esearch_all_pmids_malformed_probe query chunk w w1 ev1 r0 :
  Session_get session EUTILS (count_params query) 60 w = (w1, ev1, Ok r0) →
  ok r0 = true → reported_count r0 = None →
  esearch_all_pmids query chunk w =
    (w1, ev1, Raise
       match json r0 with
       | None => RequestException JSONDecodeError
       | Some body =>
           match b_esearchresult body with
           | None => KeyError "esearchresult"
           | Some er =>
               match er_count er with
               | None => KeyError "count"
               | Some _ => ValueError
               end
           end
       end) ∧
  calls ev1 = [get_request session EUTILS (count_params query) 60].
Proof.
  intros Hprobe Hok Hcount. rewrite esearch_all_pmids_run, Hprobe, Hcount.
  apply Session_get_calls in Hprobe as [-> _]. split; [|done].
  unfold unreadable, count_text. rewrite Hok.
  destruct (json r0) as [body|]; simpl; [|done].
  by destruct (b_esearchresult body) as [er|].
Qed.

(** A probe that fails, with an exception of the transport or with a
    failing status, ends the run with that failure; no window is
    requested. *)
Theorem esearch_all_pmids_probe_fails query chunk w w1 ev1 res0 e :
  Session_get session EUTILS (count_params query) 60 w = (w1, ev1, res0) →
  failure res0 = Some e →
  esearch_all_pmids query chunk w = (w1, ev1, Raise e) ∧
  calls ev1 = [get_request session EUTILS (count_params query) 60].
Proof.
  intros Hprobe Hfail. rewrite esearch_all_pmids_run, Hprobe.
  apply Session_get_calls in Hprobe as [-> _]. split; [|done].
  destruct res0 as [r0|e0]; simpl in Hfail; [|by simplify_eq].
  unfold unreadable. destruct (ok r0); by simplify_eq.
Qed.

(** A chunk size of 0 makes the collector raise [ValueError] once the probe
    has answered; with a negative chunk size it returns the empty sequence
    without asking for any window, whatever the count. *)
Theorem esearch_all_pmids_chunk_not_positive query chunk w w1 ev1 r0 n :
  Session_get session EUTILS (count_params query) 60 w = (w1, ev1, Ok r0) →
  ok r0 = true → reported_count r0 = Some n →
  chunk ≤ 0 → 0 ≤ n →
  esearch_all_pmids query chunk w =
    (w1, ev1, if chunk =? 0 then Raise ValueError else Ok []).
Proof.
  intros Hprobe Hok Hcount Hchunk Hn.
  rewrite (esearch_all_pmids_counted _ _ _ _ _ _ _ Hprobe Hok Hcount).
  destruct (chunk =? 0) eqn:H0.
  - apply Z.eqb_eq in H0 as ->. done.
  - apply Z.eqb_neq in H0. rewrite range_against by lia. simpl.
    by rewrite app_nil_r, set_order_empty.
Qed.

(** In a run that returns, every window request is followed by a pause of
    340 ms, the last one included; there is none after the probe. *)
Theorem esearch_all_pmids_paced query chunk w w' evs out :
  esearch_all_pmids query chunk w = (w', evs, Ok out) →
  ∃ starts,
    paced evs =
      inl (get_request session EUTILS (count_params query) 60) ::
      (starts ≫= λ start, [inl (window_request query chunk start); inr 340]).
Proof.
  rewrite esearch_all_pmids_run.
  destruct (Session_get _ _ _ _ _) as [[w1 ev1] [r0|e]] eqn:Hprobe; [|done].
  apply Session_get_paced in Hprobe.
  destruct (unreadable r0); [done|]. destruct (reported_count r0) as [n|]; [|done].
  destruct (Py.range 0 n chunk) as [starts|e]; [|done].
  destruct (for_each _ _ _ _) as [[w2 ev2] [pmids|e]] eqn:Hloop; [|done].
  intros [= <- <- _]. apply windows_Ok in Hloop as (_ & _ & Hpaced).
  exists starts. by rewrite paced_app, Hprobe, Hpaced.
Qed.
End collector_properties.

Lemma esearch_all_pmids_requests_witness :
  ∃ w' evs res,
    @esearch_all_pmids pubmed_25000 "alkaptonuria" 7000 0%nat = (w', evs, res) ∧
    ∃ k : nat,
      calls evs =
        get_request session EUTILS (count_params "alkaptonuria") 60 ::
        ((λ j : nat, window_request "alkaptonuria" 7000 (Z.of_nat j * 7000)) <$> seq 0 k) ∧
      (∀ j : nat, (j < k)%nat → Z.of_nat j * 7000 < 25000) ∧
      (∀ out, res = Ok out → ∀ j : nat, Z.of_nat j * 7000 < 25000 → (j < k)%nat).
Proof.
  eexists _, _, _. split; [vm_compute; reflexivity|].
  eapply (@esearch_all_pmids_requests pubmed_25000 "alkaptonuria" 7000 0%nat).
  - lia.
  - vm_compute. reflexivity.
  - reflexivity.
  - reflexivity.
  - reflexivity.
Defined.

Lemma esearch_all_pmids_collects_witness :
  ∃ w' evs out,
    @esearch_all_pmids pubmed_25000 "alkaptonuria" 10000 0%nat = (w', evs, Ok out) ∧
    (∀ x, x ∈ out ↔ ∃ r, r ∈ drop 1 (replies evs) ∧ x ∈ ids_of r) ∧
    (∀ x, x ∈ out → ∃ n, Py.int x = Ok n).
Proof.
  eexists _, _, _. split; [vm_compute; reflexivity|].
  eapply (@esearch_all_pmids_collects pubmed_25000 "alkaptonuria" 10000 0%nat).
  reflexivity.
Defined.

Lemma esearch_all_pmids_malformed_probe_witness :
  ∃ w1 ev1,
    @esearch_all_pmids pubmed_no_count "alkaptonuria" 10000 0%nat =
      (w1, ev1, Raise (KeyError "count")) ∧
    calls ev1 = [get_request session EUTILS (count_params "alkaptonuria") 60].
Proof.
  edestruct (@esearch_all_pmids_malformed_probe pubmed_no_count "alkaptonuria" 10000 0%nat)
    as [Hrun Hcalls]; [vm_compute; reflexivity | reflexivity | reflexivity |].
  eexists _, _. split; [exact Hrun | exact Hcalls].
Defined.

Lemma esearch_all_pmids_probe_fails_witness :
  ∃ w1 ev1,
    @esearch_all_pmids not_found "alkaptonuria" 10000 0%nat = (w1, ev1, Raise (HTTPError 404)) ∧
    calls ev1 = [get_request session EUTILS (count_params "alkaptonuria") 60].
Proof.
  eexists _, _.
  eapply (@esearch_all_pmids_probe_fails not_found "alkaptonuria" 10000 0%nat).
  - vm_compute. reflexivity.
  - reflexivity.
Defined.

Lemma esearch_all_pmids_chunk_not_positive_witness :
  ∃ w1 ev1,
    @esearch_all_pmids pubmed_25000 "alkaptonuria" (-1) 0%nat = (w1, ev1, Ok []).
Proof.
  eexists _, _.
  eapply (@esearch_all_pmids_chunk_not_positive pubmed_25000 "alkaptonuria" (-1) 0%nat).
  - vm_compute. reflexivity.
  - reflexivity.
  - reflexivity.
  - lia.
  - by vm_compute.
Defined.

Lemma esearch_all_pmids_paced_witness :
  ∃ w' evs out,
    @esearch_all_pmids pubmed_25000 "alkaptonuria" 10000 0%nat = (w', evs, Ok out) ∧
    ∃ starts,
      paced evs =
        inl (get_request session EUTILS (count_params "alkaptonuria") 60) ::
        (starts ≫= λ start, [inl (window_request "alkaptonuria" 10000 start); inr 340]).
Proof.
  eexists _, _, _. split; [vm_compute; reflexivity|].
  eapply (@esearch_all_pmids_paced pubmed_25000 "alkaptonuria" 10000 0%nat).
  reflexivity.
Defined.

(** ** Runs of the concept filter *)

(** A slice with bounds in order and a lower bound that is not negative. *)
Lemma slice_take_drop {A} (l : list A) lo hi :
  0 ≤ lo → lo ≤ hi →
  Py.slice l lo hi = take (Z.to_nat (hi - lo)) (drop (Z.to_nat lo) l).
Proof.
  intros Hlo Hhi. unfold Py.slice, Py.clip, Py.len.
  destruct (lo <? 0) eqn:Hlo'; [lia|]. destruct (hi <? 0) eqn:Hhi'; [lia|].
  destruct (decide (Z.of_nat (length l) ≤ lo)) as [Hlen|Hlen].
  - rewrite !Z.min_r by lia. rewrite Z.sub_diag. simpl.
    rewrite (drop_ge l (Z.to_nat lo)) by lia. by rewrite take_nil.
  - rewrite (Z.min_l lo) by lia.
    destruct (decide (hi ≤ Z.of_nat (length l))) as [Hhi''|Hhi''].
    + by rewrite Z.min_l by lia.
    + rewrite Z.min_r by lia.
      rewrite !take_ge; [done | rewrite length_drop; lia | rewrite length_drop; lia].
Qed.

(** Cutting a list into pieces of [p] elements and joining the pieces gives
    the list back. *)
Lemma concat_pieces {A} (p m : nat) (l : list A) :
  (0 < p)%nat → (length l ≤ m * p)%nat →
  concat ((λ k : nat, take p (drop (k * p) l)) <$> seq 0 m) = l.
Proof.
  intros Hp. revert l. induction m as [|m IH]; intros l Hlen.
  - destruct l; [done | simpl in Hlen; lia].
  - rewrite <- cons_seq, fmap_cons, <- fmap_S_seq, <- list_fmap_compose. simpl.
    rewrite drop_0. transitivity (take p l ++ drop p l); [|apply take_drop].
    f_equal. rewrite <- (IH (drop p l)) by (rewrite length_drop; lia).
    f_equal. apply list_fmap_ext. intros _ k _. simpl.
    rewrite drop_drop. do 2 f_equal; lia.
Qed.

(** A start of the loop of the filter gives a batch that is not empty. *)
Lemma batch_nonempty {A} (pmids : list A) page starts i :
  Py.range 0 (Py.len pmids) page = Ok starts → i ∈ starts →
  Py.slice pmids i (i + page) ≠ [].
Proof.
  intros Hstarts Hi. destruct (decide (0 < page)) as [Hpage|Hpage].
  - destruct (range_multiples (Py.len pmids) page Hpage) as (m & Hm & Hbelow).
    rewrite Hm in Hstarts. injection Hstarts as <-.
    apply list_elem_of_fmap in Hi as (k & -> & Hk%elem_of_seq).
    assert (Z.of_nat k * page < Py.len pmids) as Hlt by (apply Hbelow; lia).
    rewrite slice_take_drop by lia. unfold Py.len in Hlt.
    intros Hnil%(f_equal length). rewrite length_take, length_drop in Hnil.
    simpl in Hnil. lia.
  - destruct (decide (page = 0)) as [->|Hne]; [done|].
    rewrite range_against in Hstarts by (unfold Py.len; lia).
    injection Hstarts as <-. by apply elem_of_nil in Hi.
Qed.

(** For a positive page size the batches are not empty, have at most [page]
    elements, and joined in order they are the input: every PMID is in
    exactly one batch. *)
Theorem batches_partition pmids page :
  0 < page →
  ∃ bs, batches pmids page = Ok bs ∧ concat bs = pmids ∧
    Forall (λ b, b ≠ [] ∧ Py.len b ≤ page) bs.
Proof.
  intros Hpage. unfold batches.
  destruct (range_multiples (Py.len pmids) page Hpage) as (m & -> & Hm).
  eexists. split; [done|].
  rewrite <- list_fmap_compose.
  assert (∀ k : nat,
    ((λ i, Py.slice pmids i (i + page)) ∘ (λ k : nat, Z.of_nat k * page)) k =
    take (Z.to_nat page) (drop (k * Z.to_nat page) pmids)) as Hslice.
  { intros k. simpl. rewrite slice_take_drop by lia.
    f_equal; [f_equal; lia|]. f_equal. rewrite Z2Nat.inj_mul, Nat2Z.id by lia. done. }
  rewrite (list_fmap_ext _ (λ k : nat, take (Z.to_nat page) (drop (k * Z.to_nat page) pmids))
             (seq 0 m)) by (intros; apply Hslice).
  split.
  - apply concat_pieces; [lia|].
    destruct (decide (length pmids ≤ m * Z.to_nat page)%nat) as [|Hlen]; [done|].
    assert (m < m)%nat; [|lia]. apply Hm. unfold Py.len. nia.
  - apply Forall_fmap, Forall_forall. intros k Hk%elem_of_seq. simpl.
    assert (Z.of_nat k * page < Py.len pmids) as Hlt by (apply Hm; lia).
    unfold Py.len in *.
    assert (k * Z.to_nat page < length pmids)%nat as Hlt'.
    { apply Nat2Z.inj_lt. by rewrite Nat2Z.inj_mul, Z2Nat.id by lia. }
    split.
    + intros Hnil%(f_equal length). rewrite length_take, length_drop in Hnil.
      simpl in Hnil. lia.
    + rewrite length_take. lia.
Qed.

Section filter_runs.
Context `{Env}.

(** One turn of the loop of the filter, whatever the answer. *)
Lemma pubtator_batch_run pmids concepts page keep i w :
  pubtator_batch session pmids concepts page keep i w =
  match Session_get session PT_EXPORT
          (export_params (Py.slice pmids i (i + page)) concepts) 120 w with
  | (w1, ev1, Raise e) => (w1, ev1, Raise e)
  | (w1, ev1, Ok r) =>
      if ok r then
        match json r with
        | None => (w1, ev1, Raise (RequestException JSONDecodeError))
        | Some data =>
            (w1, ev1 ++ [EvSleep 500], Ok (keep_documents keep (default [] (b_documents data))))
        end
      else (w1, ev1, Raise (HTTPError (status_code r)))
  end.
Proof.
  unfold pubtator_batch. rewrite bind_run.
  destruct (Session_get _ _ _ _ _) as [[w1 ev1] [r|e]]; [|done].
  unfold ok, raise_for_status, Response_json, sleep, emit, raise, mbind, IO_bind, mret, IO_ret.
  destruct (_ && _); simpl; [by rewrite app_nil_r|].
  destruct (json r) as [data|]; simpl; by rewrite ?app_nil_r.
Qed.

(** The loop of the filter: the batches are requested in order, up to the
    first request that fails; when the loop returns, every request was
    followed by a pause. *)
Lemma pubtator_loop_calls pmids concepts page starts keep w w' evs res :
  for_each (pubtator_batch session pmids concepts page) keep starts w = (w', evs, res) →
  ∃ k, (k ≤ length starts)%nat ∧
    calls evs =
      export_request concepts <$> take k ((λ i, Py.slice pmids i (i + page)) <$> starts) ∧
    (∀ keep', res = Ok keep' →
       k = length starts ∧
       paced evs =
         ((λ i, Py.slice pmids i (i + page)) <$> starts) ≫=
           (λ b, [inl (export_request concepts b); inr 500])).
Proof.
  revert keep w evs. induction starts as [|i starts IH]; intros keep w evs; simpl.
  - intros [= <- <- <-]. exists 0%nat. by split_and!.
  - rewrite bind_run, pubtator_batch_run.
    destruct (Session_get _ _ _ _ _) as [[w1 ev1] [r|e]] eqn:Hget;
      pose proof (Session_get_paced _ _ _ _ _ _ _ _ Hget) as Hpaced;
      apply Session_get_calls in Hget as [Hcalls _].
    + destruct (ok r).
      * destruct (json r) as [data|].
        -- destruct (for_each _ _ _ _) as [[w2 ev2] res2] eqn:Hloop.
           intros [= <- <- <-]. apply IH in Hloop as (k & Hk & Hcalls2 & Hres).
           exists (S k). split_and!; [lia | by rewrite !calls_app, Hcalls, Hcalls2 |].
           intros keep' Hkeep. destruct (Hres keep' Hkeep) as [-> Hpaced2].
           split; [done|]. by rewrite !paced_app, Hpaced, Hpaced2.
        -- intros [= <- <- <-]. exists 1%nat. split_and!; [lia | done | done].
      * intros [= <- <- <-]. exists 1%nat. split_and!; [lia | done | done].
    + intros [= <- <- <-]. exists 1%nat. split_and!; [lia | done | done].
Qed.

(** The filter sends the batches in order, one request for each, and stops
    at the first request that fails. *)
Theorem pubtator_has_concept_requests pmids concepts page bs w w' evs res :
  batches pmids page = Ok bs →
  pubtator_has_concept pmids concepts page w = (w', evs, res) →
  ∃ k, (k ≤ length bs)%nat ∧
    calls evs = export_request concepts <$> take k bs ∧
    (∀ keep, res = Ok keep → k = length bs).
Proof.
  unfold batches, pubtator_has_concept. rewrite bind_run. unfold lift.
  destruct (Py.range 0 (Py.len pmids) page) as [starts|e]; [|done].
  intros [= <-]. destruct (for_each _ _ _ _) as [[w2 ev2] res2] eqn:Hloop.
  intros [= <- <- <-]. apply pubtator_loop_calls in Hloop as (k & Hk & Hcalls & Hres).
  rewrite length_fmap. exists k. split_and!; [done.. |].
  intros keep Hkeep. by destruct (Hres keep Hkeep).
Qed.

(** In a run of the filter that returns, every request is followed by a
    pause of 500 ms, the last one included. *)
Theorem pubtator_has_concept_paced pmids concepts page w w' evs keep :
  pubtator_has_concept pmids concepts page w = (w', evs, Ok keep) →
  ∃ bs, batches pmids page = Ok bs ∧
    paced evs = bs ≫= (λ b, [inl (export_request concepts b); inr 500]).
Proof.
  unfold batches, pubtator_has_concept. rewrite bind_run. unfold lift.
  destruct (Py.range 0 (Py.len pmids) page) as [starts|e]; [|done].
  destruct (for_each _ _ _ _) as [[w2 ev2] res2] eqn:Hloop.
  intros [= <- <- ->]. apply pubtator_loop_calls in Hloop as (k & _ & _ & Hres).
  destruct (Hres keep eq_refl) as [_ Hpaced]. eexists. split; [done|]. done.
Qed.

(** A page size of 0 makes the filter raise [ValueError] before any request;
    with a negative page size it returns the empty set without any request,
    whatever the PMIDs. *)
Theorem pubtator_has_concept_page_not_positive pmids concepts page w :
  page ≤ 0 →
  pubtator_has_concept pmids concepts page w =
    (w, [], if page =? 0 then Raise ValueError else Ok ∅).
Proof.
  intros Hpage. unfold pubtator_has_concept. rewrite bind_run. unfold lift.
  destruct (page =? 0) eqn:H0.
  - apply Z.eqb_eq in H0 as ->. done.
  - apply Z.eqb_neq in H0. rewrite range_against; [done|]. unfold Py.len. lia.
Qed.
End filter_runs.
(** ** Retries of the session *)

(** An answer of the retry list is a failed attempt of a GET. *)
Lemma retried_answer_failed left url params timeout a :
  retried_answer a = true →
  failed_attempt (s_adapter session) left (get_request session url params timeout) a = true.
Proof.
  rewrite failed_attempt_session. destruct a as [err|resp]; simpl.
  - intros _. apply orb_true_r.
  - by intros ->.
Qed.

(** A response that passes [raise_for_status] is not retried. *)
Lemma ok_not_failed left rq r :
  ok r = true → failed_attempt (s_adapter session) left rq (inr r) = false.
Proof.
  rewrite failed_attempt_session. unfold ok. intros Hok%negb_true_iff.
  assert (¬ 400 ≤ status_code r < 600) as Hstatus by lia.
  rewrite (bool_decide_eq_false_2 (status_code r ∈ _)).
  - rewrite (bool_decide_eq_false_2 (status_code r = 413)) by lia.
    by rewrite !andb_false_r.
  - rewrite !elem_of_cons, elem_of_nil. lia.
Qed.

Section retries.
Context `{Env}.

Lemma after_S rq k w : after rq (S k) w = (wire (after rq k w) rq).1.
Proof. revert w. induction k as [|k IH]; intros w; [done|]. apply (IH (wire w rq).1). Qed.

(** After [k] failed attempts [urlopen] goes on with [k] retries less. *)
Lemma urlopen_failures r left failed rq w k :
  (k ≤ left)%nat →
  (∀ j, (j < k)%nat → failed_attempt r (left - j) rq (wire (after rq j w) rq).2 = true) →
  urlopen r left failed rq w =
  let '(w2, evs, res) := urlopen r (left - k) (failed + k) rq (after rq k w) in
  (w2,
   (seq 0 k ≫= λ j, EvSend rq :: pause r (S (failed + j)) (wire (after rq j w) rq).2) ++ evs,
   res).
Proof.
  revert left failed w. induction k as [|k IH]; intros left failed w Hk Hfailed.
  - rewrite Nat.sub_0_r, Nat.add_0_r. simpl.
    by destruct (urlopen r left failed rq w) as [[w2 evs] res].
  - destruct left as [|left]; [lia|].
    pose proof (Hfailed 0%nat ltac:(lia)) as Hfirst. simpl in Hfirst.
    rewrite urlopen_unfold. destruct (wire w rq) as [w1 a] eqn:Hwire.
    simpl in Hfirst. rewrite Hfirst.
    rewrite (IH left (S failed) w1) by
      (try lia; intros j Hj; specialize (Hfailed (S j) ltac:(lia)); simpl in Hfailed;
       by rewrite Hwire in Hfailed).
    simpl. rewrite Hwire. simpl. rewrite Nat.add_succ_r.
    destruct (urlopen r (left - k) (S (failed + k)) rq (after rq k w1)) as [[w2 evs] res].
    rewrite Nat.add_0_r, <- (assoc_L (++)). do 4 f_equal.
    rewrite <- fmap_S_seq, list_fmap_bind. f_equal.
    apply list_bind_ext; [|done]. intros j. simpl. by rewrite Hwire, Nat.add_succ_r.
Qed.

(** A GET whose first [k] attempts, at most five, end with an error or a
    status of the retry list, and whose next attempt is answered with a
    status that passes and is no redirect, returns that answer after
    [k + 1] attempts, with the waits of the session between them; the
    failures before it are not seen by the caller. *)
Theorem Session_get_after_retries url params timeout k w r :
  let rq := get_request session url params timeout in
  (k ≤ 5)%nat →
  (∀ j, (j < k)%nat → retried_answer (wire (after rq j w) rq).2 = true) →
  (wire (after rq k w) rq).2 = inr r → ok r = true → get_redirect_target r = None →
  Session_get session url params timeout w =
    (after rq (S k) w, EvCall rq :: exchange (s_adapter session) rq w k ++ [EvReply r], Ok r) ∧
  sends (exchange (s_adapter session) rq w k) = replicate (S k) rq.
Proof.
  intros rq Hk Hretried Hlast Hok Htarget. split; [|apply sends_exchange].
  unfold Session_get. rewrite Session_request_unfold. fold (get_request session url params timeout).
  fold rq. unfold HTTPAdapter_send.
  rewrite (urlopen_failures _ _ _ _ _ k) by
    (try done; intros j Hj; by apply retried_answer_failed, Hretried).
  rewrite urlopen_unfold, after_S.
  destruct (wire (after rq k w) rq) as [w1 a]. simpl in Hlast. subst a.
  rewrite ok_not_failed by done. rewrite resolve_redirects_done by done.
  reflexivity.
Qed.

(** A GET whose six attempts all end with an error or a status of the retry
    list raises after the sixth, with the waits of the session between the
    attempts: [RetryError] when the last answer is a status, a connection
    failure when it is an error. *)
Theorem Session_get_gives_up url params timeout w :
  let rq := get_request session url params timeout in
  (∀ j, (j ≤ 5)%nat → retried_answer (wire (after rq j w) rq).2 = true) →
  Session_get session url params timeout w =
    (after rq 6 w, EvCall rq :: exchange (s_adapter session) rq w 5,
     Raise (exhausted (wire (after rq 5 w) rq).2)) ∧
  sends (exchange (s_adapter session) rq w 5) = replicate 6 rq.
Proof.
  intros rq Hretried. split; [|apply sends_exchange].
  unfold Session_get. rewrite Session_request_unfold. fold (get_request session url params timeout).
  fold rq. unfold HTTPAdapter_send.
  rewrite (urlopen_failures _ _ _ _ _ 5) by
    (try done; intros j Hj; apply retried_answer_failed, Hretried; lia).
  rewrite urlopen_unfold, (after_S rq 5).
  pose proof (retried_answer_failed 0 url params timeout _ (Hretried 5%nat ltac:(lia))) as Hlast.
  fold rq in Hlast. destruct (wire (after rq 5 w) rq) as [w1 a]. simpl in Hlast |- *.
  by rewrite Hlast.
Qed.
End retries.

Lemma Session_get_after_retries_witness :
  let rq := get_request session EUTILS (count_params "alkaptonuria") 60 in
  @Session_get flaky session EUTILS (count_params "alkaptonuria") 60 0%nat =
    (3%nat,
     EvCall rq :: @exchange flaky (s_adapter session) rq 0%nat 2 ++
       [EvReply (response_200 (esearch_body "0" []))],
     Ok (response_200 (esearch_body "0" []))) ∧
  sends (@exchange flaky (s_adapter session) rq 0%nat 2) = replicate 3 rq.
Proof.
  apply (@Session_get_after_retries flaky EUTILS (count_params "alkaptonuria") 60 2 0%nat).
  - lia.
  - intros [|[|j]] Hj; [reflexivity | reflexivity | lia].
  - reflexivity.
  - reflexivity.
  - reflexivity.
Defined.

Lemma Session_get_gives_up_witness :
  let rq := get_request session EUTILS (count_params "alkaptonuria") 60 in
  @Session_get unreachable session EUTILS (count_params "alkaptonuria") 60 0%nat =
    (6%nat, EvCall rq :: @exchange unreachable (s_adapter session) rq 0%nat 5,
     Raise (RequestException ConnectionError)) ∧
  sends (@exchange unreachable (s_adapter session) rq 0%nat 5) = replicate 6 rq.
Proof.
  apply (@Session_get_gives_up unreachable EUTILS (count_params "alkaptonuria") 60 0%nat).
  intros j Hj. reflexivity.
Defined.

(** The attempts of that run and the waits between them. *)
Example exchange_unreachable :
  let rq := get_request session EUTILS (count_params "alkaptonuria") 60 in
  @exchange unreachable (s_adapter session) rq 0%nat 5 =
    [EvSend rq; EvSend rq; EvWait 1000; EvSend rq; EvWait 2000; EvSend rq; EvWait 4000;
     EvSend rq; EvWait 8000; EvSend rq].
Proof. reflexivity. Qed.

(** ** The filter and its input *)

Section filter_properties.
Context `{Env}.

(** When the service answers every batch only with annotated documents of
    that batch, the filter returns PMIDs of its input. *)
Theorem pubtator_has_concept_subset_of_input pmids concepts page w w' evs keep :
  (∀ batch w0 w1 evs0 r doc,
     batch ≠ [] → batch ⊆ pmids →
     Session_get session PT_EXPORT (export_params batch concepts) 120 w0 = (w1, evs0, Ok r) →
     doc ∈ documents r → 0 < ann_count doc →
     ∃ p, d_id doc = Some p ∧ p ∈ batch) →
  pubtator_has_concept pmids concepts page w = (w', evs, Ok keep) →
  ∀ i, i ∈ keep → ∃ p, i = Some p ∧ p ∈ pmids.
Proof.
  intros Hecho Hrun.
  unfold pubtator_has_concept in Hrun. rewrite bind_run in Hrun. unfold lift in Hrun.
  destruct (Py.range 0 (Py.len pmids) page) as [starts|e] eqn:Hstarts; [|done].
  destruct (for_each _ _ _ _) as [[w2 ev2] res2] eqn:Hloop. injection Hrun as <- <- ->.
  cut (spec (λ _, True)
         (λ keep : gset (option string), ∀ i, i ∈ keep → ∃ p, i = Some p ∧ p ∈ pmids)
         (λ _, True) (for_each (pubtator_batch session pmids concepts page) ∅ starts)).
  { intros Hspec. by apply Hspec in Hloop as [_ ?]. }
  apply spec_for_each; [|by intros i ?%not_elem_of_empty].
  intros acc i Hi Hacc w0 w1 evs0 res. rewrite pubtator_batch_run.
  destruct (Session_get _ _ _ _ _) as [[w3 ev3] [r|e]] eqn:Hget;
    [|intros [= <- <- <-]; split; [by apply Forall_true | done]].
  destruct (ok r); [|intros [= <- <- <-]; split; [by apply Forall_true | done]].
  destruct (json r) as [data|] eqn:Hdata;
    intros [= <- <- <-]; (split; [by apply Forall_true|]); [|done].
  intros j [?|(doc & Hdoc & <- & Hcount)]%elem_of_keep_documents; [by apply Hacc|].
  pose proof (batch_nonempty pmids page starts i Hstarts Hi) as Hne.
  destruct (Hecho _ _ _ _ _ doc Hne (slice_subseteq _ _ _) Hget) as (p & -> & Hp);
    [|done|].
  { unfold documents. by rewrite Hdata. }
  exists p. split; [done|]. by eapply slice_subseteq.
Qed.
End filter_properties.

Lemma batches_partition_witness :
  ∃ bs, batches ["9"; "10"; "11"] 2 = Ok bs ∧ concat bs = ["9"; "10"; "11"] ∧
    Forall (λ b, b ≠ [] ∧ Py.len b ≤ 2) bs.
Proof. apply (batches_partition ["9"; "10"; "11"] 2). lia. Defined.

Lemma pubtator_has_concept_requests_witness :
  ∃ w' evs res,
    @pubtator_has_concept both_services ["9"; "10"; "11"] ["disease"] 2 0%nat = (w', evs, res) ∧
    ∃ k, (k ≤ 2)%nat ∧
      calls evs = export_request ["disease"] <$> take k [["9"; "10"]; ["11"]] ∧
      (∀ keep, res = Ok keep → k = 2%nat).
Proof.
  eexists _, _, _. split; [reflexivity|].
  eapply (@pubtator_has_concept_requests both_services ["9"; "10"; "11"] ["disease"] 2
           [["9"; "10"]; ["11"]] 0%nat).
  - reflexivity.
  - reflexivity.
Defined.

Lemma pubtator_has_concept_paced_witness :
  ∃ w' evs keep,
    @pubtator_has_concept both_services ["9"; "10"; "11"] ["disease"] 2 0%nat
      = (w', evs, Ok keep) ∧
    ∃ bs, batches ["9"; "10"; "11"] 2 = Ok bs ∧
      paced evs = bs ≫= (λ b, [inl (export_request ["disease"] b); inr 500]).
Proof.
  eexists _, _, _. split; [reflexivity|].
  eapply (@pubtator_has_concept_paced both_services ["9"; "10"; "11"] ["disease"] 2 0%nat).
  reflexivity.
Defined.

Lemma pubtator_has_concept_page_not_positive_witness :
  @pubtator_has_concept both_services ["9"; "10"] ["disease"] (-1) 0%nat = (0%nat, [], Ok ∅).
Proof.
  apply (@pubtator_has_concept_page_not_positive both_services ["9"; "10"] ["disease"] (-1) 0%nat).
  lia.
Defined.

Lemma pubtator_has_concept_subset_of_input_witness :
  ∃ w' evs keep,
    @pubtator_has_concept pubtator_nine ["9"] ["disease"] 1000 0%nat = (w', evs, Ok keep) ∧
    ∀ i, i ∈ keep → ∃ p, i = Some p ∧ p ∈ ["9"].
Proof.
  eexists _, _, _. split; [reflexivity|].
  eapply (@pubtator_has_concept_subset_of_input pubtator_nine ["9"] ["disease"] 1000 0%nat);
    [|reflexivity].
  intros batch w0 w1 evs0 r doc Hne Hsub Hget Hdoc _.
  vm_compute in Hget.
  injection Hget as _ _ <-. apply list_elem_of_singleton in Hdoc as ->.
  exists "9". split; [reflexivity|].
  destruct batch as [|p batch]; [done|].
  assert (p ∈ ["9"]) as ->%list_elem_of_singleton by (apply Hsub; by left). by left.
Defined.

(** ** The driver: from the filter to the output *)

Lemma int_of_id_Ok i k : int_of_id i = Ok k → ∃ x, i = Some x ∧ Py.int x = Ok k.
Proof. destruct i as [x|]; [by exists x | done]. Qed.

Lemma fmap_Some_omap_id {A} (l : list (option A)) :
  Forall is_Some l → Some <$> omap id l = l.
Proof.
  induction 1 as [|i l [x ->] _ IH]; [done|]. simpl. f_equal. exact IH.
Qed.

Lemma StronglySorted_int_of_id (l : list string) :
  StronglySorted (key_le int_of_id) (Some <$> l) → StronglySorted num_le l.
Proof.
  induction l as [|x l IH]; [constructor|]. rewrite fmap_cons.
  intros [Hsorted Hall]%StronglySorted_inv. constructor; [by apply IH|].
  rewrite Forall_fmap in Hall. exact Hall.
Qed.

(** [sorted] raises as soon as the key of one element does. *)
Lemma sorted_Raise_elem {A} (key : A → result Z) l x e :
  x ∈ l → key x = Raise e → ∃ e', Py.sorted key l = Raise e'.
Proof.
  intros Hx Hkey. destruct (Py.sorted key l) as [out|e'] eqn:Hsorted; [|by exists e'].
  destruct (sorted_Ok _ _ _ Hsorted) as [Hperm _]. rewrite <- Hperm in Hx.
  destruct (sorted_Ok_keys _ _ _ _ Hsorted Hx) as [k Hk]. congruence.
Qed.

(** The sort after the filter: what it returns are the strings of the set,
    without repetition and in ascending numeric order. *)
Lemma sorted_ids (subset : gset (option string)) ids out :
  ids ≡ₚ elements subset →
  Py.sorted int_of_id ids = Ok out →
  Some <$> omap id out = out ∧
  NoDup (omap id out) ∧ StronglySorted num_le (omap id out) ∧
  ∀ i, i ∈ subset → ∃ x n, i = Some x ∧ Py.int x = Ok n ∧ x ∈ omap id out.
Proof.
  intros Hids Hsorted. destruct (sorted_Ok _ _ _ Hsorted) as [Hperm Hasc].
  rewrite Hids in Hperm.
  assert (Some <$> omap id out = out) as Hout.
  { apply fmap_Some_omap_id, Forall_forall. intros i Hi.
    destruct (sorted_Ok_keys _ _ _ _ Hsorted Hi) as [k (x & -> & _)%int_of_id_Ok]. eauto. }
  split_and!; [done | | |].
  - apply (NoDup_fmap_1 Some). rewrite Hout, Hperm. apply NoDup_elements.
  - apply StronglySorted_int_of_id. by rewrite Hout.
  - intros i Hi. apply elem_of_elements in Hi. rewrite <- Hperm in Hi.
    destruct (sorted_Ok_keys _ _ _ _ Hsorted Hi) as [k (x & -> & Hk)%int_of_id_Ok].
    exists x, k. split_and!; [done..|].
    rewrite <- Hout in Hi. by apply (list_elem_of_fmap_inj_2 Some) in Hi.
Qed.

Section driver_properties.
Context `{Env}.

(** The run of [main] for the way the [try] block ends. *)
Lemma main_run args w :
  main args w =
  match pipeline args w with
  | (w1, evs, Ok pmids) =>
      let '(w2, evs2, res2) := output args pmids w1 in (w2, evs ++ evs2, res2)
  | (w1, evs, Raise e) =>
      match handler e w1 with
      | (w2, evs2, Ok pmids) =>
          let '(w3, evs3, res3) := output args pmids w2 in (w3, (evs ++ evs2) ++ evs3, res3)
      | (w2, evs2, Raise e') => (w2, evs ++ evs2, Raise e')
      end
  end.
Proof.
  unfold main. rewrite bind_run. unfold try_except.
  destruct (pipeline args w) as [[w1 evs] [pmids|e]]; [done|].
  by destruct (handler e w1) as [[w2 evs2] [pmids|e']].
Qed.

(** The run of the output stage. *)
Lemma output_run args pmids w :
  output args pmids w =
  if Py.truthy (out args) then
    if (open_w w (out args)).2 then
      ((open_w w (out args)).1,
       ((λ p, EvWrite (out args) (p +:+ nl)) <$> pmids) ++
       [EvPrint ("Wrote " +:+ pretty (Py.len pmids) +:+ " PMIDs to " +:+ out args)],
       Ok tt)
    else ((open_w w (out args)).1, [], Raise OSError)
  else
    (w, (EvPrint <$> pmids) ++
        [EvStderr (nl +:+ "Total PMIDs: " +:+ pretty (Py.len pmids) +:+ nl)], Ok tt).
Proof.
  unfold output. destruct (Py.truthy (out args)).
  - rewrite bind_run. unfold open_for_writing.
    destruct (open_w w (out args)) as [w1 [|]]; [|done].
    by rewrite bind_run, for_each_emit.
  - by rewrite bind_run, for_each_emit.
Qed.

(** Whatever the arguments, the list the [try] block hands to the output
    stage has no duplicate and is in ascending numeric order. *)
Theorem pipeline_ascending args w w' evs pmids :
  pipeline args w = (w', evs, Ok pmids) →
  NoDup pmids ∧ StronglySorted num_le pmids.
Proof.
  unfold pipeline. intros Hrun. io_inv Hrun as found Hfound.
  destruct (Py.truthy _).
  - io_inv Hrun as subset Hfilter. io_inv Hrun as ids Hids.
    apply iter_set_Ok in Hids as (Hids & _ & _). io_inv Hrun as out Hsorted.
    apply lift_Ok in Hsorted as (Hsorted & _ & _).
    apply mret_Ok in Hrun as (-> & _ & _).
    by destruct (sorted_ids _ _ _ Hids Hsorted) as (_ & ? & ? & _).
  - apply mret_Ok in Hrun as (-> & _ & _).
    apply esearch_all_pmids_Ok in Hfound as (ids & unique & Hunique & [Hperm Hsorted]%sorted_Ok).
    split; [|done]. rewrite Hperm, Hunique. apply NoDup_elements.
Qed.

(** With concepts, once the collector and the filter have returned, the
    [try] block returns the strings of the filter's set when all of them
    are numeric; an element that is no string, or not numeric, makes it
    raise [TypeError] or [ValueError]. *)
Theorem pipeline_filtered args w w1 ev1 found w2 ev2 subset :
  Py.truthy (Py.strip (concepts args)) = true →
  esearch_all_pmids (keyword args) 10000 w = (w1, ev1, Ok found) →
  pubtator_has_concept found (normalize_concepts (concepts args)) 1000 w1
    = (w2, ev2, Ok subset) →
  ∃ res, pipeline args w = (w2, ev1 ++ ev2, res) ∧
    match res with
    | Ok pmids =>
        (∀ x, x ∈ pmids ↔ Some x ∈ subset) ∧
        ∀ i, i ∈ subset → ∃ x n, i = Some x ∧ Py.int x = Ok n
    | Raise e =>
        (e = TypeError ∨ e = ValueError) ∧ ∃ i, i ∈ subset ∧ int_of_id i = Raise e
    end.
Proof.
  intros Htruthy Hfound Hfilter. unfold pipeline.
  rewrite bind_run, Hfound, Htruthy, bind_run, Hfilter, bind_run. unfold iter_set.
  rewrite bind_run. unfold lift.
  pose proof (set_order_perm w2 _ subset) as Hids.
  destruct (Py.sorted int_of_id (set_order w2 _ subset)) as [out|e] eqn:Hsorted; simpl.
  - eexists. split; [by rewrite !app_nil_r|].
    destruct (sorted_ids _ _ _ Hids Hsorted) as (Hout & _ & _ & Hall).
    destruct (sorted_Ok _ _ _ Hsorted) as [Hperm _]. split.
    + intros x. rewrite <- (list_elem_of_fmap_inj Some (omap id out) x), Hout, Hperm, Hids.
      apply elem_of_elements.
    + intros i Hi. destruct (Hall i Hi) as (x & n & ? & ? & _). eauto.
  - eexists. split; [by rewrite !app_nil_r|].
    destruct (sorted_Raise _ _ _ Hsorted) as (i & Hi & Hkey).
    rewrite Hids in Hi. apply elem_of_elements in Hi.
    split; [|eauto]. apply int_of_id_Raise in Hkey. tauto.
Qed.

(** An annotated document without ["id"] makes the run end with an
    uncaught exception: nothing is printed or written, and the exit status
    is 1. *)
Theorem main_missing_id args w w1 ev1 found w2 ev2 subset :
  Py.truthy (Py.strip (concepts args)) = true →
  esearch_all_pmids (keyword args) 10000 w = (w1, ev1, Ok found) →
  pubtator_has_concept found (normalize_concepts (concepts args)) 1000 w1
    = (w2, ev2, Ok subset) →
  None ∈ subset →
  ∃ e, (e = TypeError ∨ e = ValueError) ∧
    main args w = (w2, ev1 ++ ev2, Raise e) ∧
    exit_status (main args w).2 = 1.
Proof.
  intros Htruthy Hfound Hfilter Hnone.
  assert (∃ e, pipeline args w = (w2, ev1 ++ ev2, Raise e) ∧ (e = TypeError ∨ e = ValueError))
    as (e & Hrun & He).
  { unfold pipeline.
    rewrite bind_run, Hfound, Htruthy, bind_run, Hfilter, bind_run. unfold iter_set.
    rewrite bind_run. unfold lift.
    apply elem_of_elements in Hnone. rewrite <- (set_order_perm w2) in Hnone.
    destruct (sorted_Raise_elem int_of_id _ None TypeError Hnone eq_refl) as [e Hsorted].
    rewrite Hsorted. exists e. split; [by rewrite !app_nil_r|].
    destruct (sorted_Raise _ _ _ Hsorted) as (i & _ & Hkey).
    apply int_of_id_Raise in Hkey. tauto. }
  exists e. split; [done|]. rewrite main_run, Hrun.
  destruct He as [-> | ->]; simpl; by rewrite app_nil_r.
Qed.

(** Without [--out], a run whose [try] block returns prints the PMIDs, one
    line each and in the order of the list, then writes their number to
    the error stream, and ends well. *)
Theorem main_prints args w w1 evs pmids :
  pipeline args w = (w1, evs, Ok pmids) →
  out args = "" →
  main args w =
    (w1,
     evs ++ (EvPrint <$> pmids) ++
       [EvStderr (nl +:+ "Total PMIDs: " +:+ pretty (Py.len pmids) +:+ nl)],
     Ok tt).
Proof.
  intros Hrun Hout. rewrite main_run, Hrun, output_run, Hout. done.
Qed.

(** With [--out], a run whose [try] block returns writes one line for each
    PMID to the file, in the order of the list, and prints their number; when
    the file cannot be opened it raises [OSError] and writes nothing. *)
Theorem main_writes args w w1 evs pmids :
  pipeline args w = (w1, evs, Ok pmids) →
  out args ≠ "" →
  main args w =
    if (open_w w1 (out args)).2 then
      ((open_w w1 (out args)).1,
       evs ++ ((λ p, EvWrite (out args) (p +:+ nl)) <$> pmids) ++
         [EvPrint ("Wrote " +:+ pretty (Py.len pmids) +:+ " PMIDs to " +:+ out args)],
       Ok tt)
    else ((open_w w1 (out args)).1, evs, Raise OSError).
Proof.
  intros Hrun Hout. rewrite main_run, Hrun, output_run.
  destruct (out args) as [|c path] eqn:Hpath; [done|]. simpl.
  destruct (open_w w1 _).2; [done|]. by rewrite app_nil_r.
Qed.
End driver_properties.

Lemma pipeline_ascending_witness :
  ∃ w' evs,
    @pipeline both_services
      {| keyword := "alkaptonuria"; concepts := "disease"; out := "" |} 0%nat
      = (w', evs, Ok ["9"]) ∧
    NoDup ["9"] ∧ StronglySorted num_le ["9"].
Proof.
  eexists _, _. split; [vm_compute; reflexivity|].
  eapply (@pipeline_ascending both_services
            {| keyword := "alkaptonuria"; concepts := "disease"; out := "" |} 0%nat).
  vm_compute. reflexivity.
Defined.

Lemma pipeline_filtered_witness :
  ∃ w1 ev1 found w2 ev2 subset,
    @esearch_all_pmids both_services "alkaptonuria" 10000 0%nat = (w1, ev1, Ok found) ∧
    @pubtator_has_concept both_services found ["disease"] 1000 w1 = (w2, ev2, Ok subset) ∧
    ∃ res,
      @pipeline both_services
        {| keyword := "alkaptonuria"; concepts := "disease"; out := "" |} 0%nat
        = (w2, ev1 ++ ev2, res) ∧
      match res with
      | Ok pmids =>
          (∀ x, x ∈ pmids ↔ Some x ∈ subset) ∧
          ∀ i, i ∈ subset → ∃ x n, i = Some x ∧ Py.int x = Ok n
      | Raise e =>
          (e = TypeError ∨ e = ValueError) ∧ ∃ i, i ∈ subset ∧ int_of_id i = Raise e
      end.
Proof.
  eexists _, _, _, _, _, _. split; [vm_compute; reflexivity|]. split; [reflexivity|].
  eapply (@pipeline_filtered both_services
           {| keyword := "alkaptonuria"; concepts := "disease"; out := "" |} 0%nat).
  - reflexivity.
  - reflexivity.
  - reflexivity.
Defined.

Lemma main_missing_id_witness :
  ∃ w2 evs,
    @main pubtator_no_id
      {| keyword := "alkaptonuria"; concepts := "disease"; out := "" |} 0%nat
      = (w2, evs, Raise TypeError) ∧
    printed evs = [] ∧
    exit_status (@main pubtator_no_id
      {| keyword := "alkaptonuria"; concepts := "disease"; out := "" |} 0%nat).2 = 1.
Proof.
  edestruct (@main_missing_id pubtator_no_id
               {| keyword := "alkaptonuria"; concepts := "disease"; out := "" |} 0%nat)
    as (e & _ & Hmain & Hexit);
    [reflexivity | vm_compute; reflexivity | reflexivity | |].
  { apply elem_of_keep_documents. right. eexists. split_and!; [by left | done | by vm_compute]. }
  eexists _, _. split; [vm_compute; reflexivity|]. split; [reflexivity | exact Hexit].
Defined.

Lemma main_prints_witness :
  ∃ w1 evs,
    @main both_services
      {| keyword := "alkaptonuria"; concepts := "disease"; out := "" |} 0%nat
      = (w1, evs ++ [EvPrint "9"; EvStderr (nl +:+ "Total PMIDs: 1" +:+ nl)], Ok tt).
Proof.
  eexists _, _.
  apply (@main_prints both_services
           {| keyword := "alkaptonuria"; concepts := "disease"; out := "" |} 0%nat _ _ ["9"]).
  - vm_compute. reflexivity.
  - reflexivity.
Defined.

Lemma main_writes_witness :
  ∃ w1 evs,
    @main read_only
      {| keyword := "alkaptonuria"; concepts := ""; out := "pmids.txt" |} 0%nat
      = (w1, evs, Raise OSError) ∧ written evs = [].
Proof.
  eexists _, _. split.
  - etransitivity.
    + eapply (@main_writes read_only
                {| keyword := "alkaptonuria"; concepts := ""; out := "pmids.txt" |} 0%nat).
      * vm_compute. reflexivity.
      * done.
    + reflexivity.
  - reflexivity.
Defined.

(** ** The concepts of the command line *)

Section trim.
Context (space : ascii → bool).

Lemma trim_right_unfold c s :
  Py.trim_right space (String c s) =
  match Py.trim_right space s with
  | EmptyString => if space c then EmptyString else String c EmptyString
  | t => String c t
  end.
Proof. reflexivity. Qed.

Lemma trim_right_cons c s :
  space c = false → Py.trim_right space (String c s) = String c (Py.trim_right space s).
Proof. intros Hc. rewrite trim_right_unfold, Hc. by destruct (Py.trim_right space s). Qed.

Lemma trim_right_idemp s :
  Py.trim_right space (Py.trim_right space s) = Py.trim_right space s.
Proof.
  induction s as [|c s IH]; [done|]. rewrite trim_right_unfold.
  destruct (Py.trim_right space s) as [|a t] eqn:Hs.
  - destruct (space c) eqn:Hc; [done|]. by rewrite trim_right_cons.
  - by rewrite trim_right_unfold, IH.
Qed.

Lemma trim_left_start s :
  match Py.trim_left space s with
  | String c _ => space c = false
  | EmptyString => True
  end.
Proof.
  induction s as [|c s IH]; [done|]. simpl.
  by destruct (space c) eqn:Hc.
Qed.

Lemma free_of_trim_left c s : free_of c s → free_of c (Py.trim_left space s).
Proof.
  induction s as [|c' s IH]; [done|]. intros [Hc Hs]. simpl.
  destruct (space c'); [by apply IH | done].
Qed.

Lemma free_of_trim_right c s : free_of c s → free_of c (Py.trim_right space s).
Proof.
  induction s as [|c' s IH]; [done|]. intros [Hc Hs]. rewrite trim_right_unfold.
  specialize (IH Hs). destruct (Py.trim_right space s); [by destruct (space c')|done].
Qed.
End trim.

(** Stripping twice is stripping once: the result has no white space at
    either end. *)
Lemma strip_idemp s : Py.strip (Py.strip s) = Py.strip s.
Proof.
  unfold Py.strip, Py.rstrip, Py.lstrip.
  pose proof (trim_left_start Py.isspace s) as Hstart.
  destruct (Py.trim_left Py.isspace s) as [|c t]; [done|].
  rewrite (trim_right_cons _ c t Hstart). simpl. rewrite Hstart.
  by rewrite (trim_right_cons _ c _ Hstart), trim_right_idemp.
Qed.

Lemma free_of_rev_app c s1 s2 :
  free_of c s1 → free_of c s2 → free_of c (String.rev_app s1 s2).
Proof.
  revert s2. induction s1 as [|c' s1 IH]; intros s2; [done|].
  intros [Hc Hs1] Hs2. simpl. by apply IH.
Qed.

(** The pieces of a split do not contain the separator. *)
Lemma split_go_free sep cur s :
  free_of sep cur → Forall (free_of sep) (Py.split_go sep cur s).
Proof.
  revert cur. induction s as [|c s IH]; intros cur Hcur; simpl.
  - constructor; [|constructor]. by apply free_of_rev_app.
  - destruct (Ascii.eqb c sep) eqn:Hc.
    + constructor; [by apply free_of_rev_app | by apply IH].
    + apply IH. split; [by apply Ascii.eqb_neq | done].
Qed.

Lemma append_nil_r s : s +:+ "" = s.
Proof.
  induction s as [|c s IH]; [done|]. change (String c (s +:+ "") = String c s).
  by rewrite IH.
Qed.

Lemma rev_app_rev_app s cur acc :
  String.rev_app (String.rev_app s cur) acc = String.rev_app cur (s +:+ acc).
Proof.
  revert cur acc. induction s as [|c s IH]; intros cur acc; [done|].
  change (String.rev_app (String.rev_app s (String c cur)) acc =
          String.rev_app cur (String c (s +:+ acc))).
  by rewrite IH.
Qed.

(** A piece without the separator is read as a whole. *)
Lemma split_go_piece sep cur x s :
  free_of sep x →
  Py.split_go sep cur (x +:+ s) = Py.split_go sep (String.rev_app x cur) s.
Proof.
  revert cur. induction x as [|c x IH]; intros cur; [done|]. intros [Hc Hx].
  change (String c x +:+ s) with (String c (x +:+ s)). cbn [Py.split_go String.rev_app].
  apply Ascii.eqb_neq in Hc as ->. by apply IH.
Qed.

(** Joined with the separator, pieces without it are split into themselves
    again, when there is at least one. *)
Lemma split_join sep l :
  l ≠ [] → Forall (free_of sep) l →
  Py.split sep (Py.join (String sep "") l) = l.
Proof.
  unfold Py.split. induction l as [|x l IH]; [done|]. intros _ [Hx Hl]%Forall_cons.
  destruct l as [|y l].
  - change (Py.join (String sep "") [x]) with x.
    rewrite <- (append_nil_r x) at 1. rewrite split_go_piece by done. cbn [Py.split_go].
    unfold String.rev. rewrite rev_app_rev_app. cbn [String.rev_app].
    by rewrite append_nil_r.
  - change (Py.join (String sep "") (x :: y :: l))
      with (x +:+ String sep (Py.join (String sep "") (y :: l))).
    rewrite split_go_piece by done. cbn [Py.split_go]. rewrite Ascii.eqb_refl.
    unfold String.rev at 1. rewrite rev_app_rev_app. cbn [String.rev_app].
    rewrite append_nil_r. f_equal. by apply IH.
Qed.

(** What the comprehension keeps: pieces that are not empty, have no white
    space at either end and contain no comma. *)
Lemma normalize_concepts_pieces s :
  Forall (λ c, c ≠ "" ∧ Py.strip c = c ∧ free_of "," c) (normalize_concepts s).
Proof.
  apply Forall_forall. intros c. rewrite normalize_concepts_filter.
  intros [Hc (piece & -> & Hpiece)%list_elem_of_fmap]%list_elem_of_filter.
  split_and!; [done | apply strip_idemp |].
  apply free_of_trim_right, free_of_trim_left.
  eapply Forall_forall; [|exact Hpiece]. by apply split_go_free.
Qed.

(** ** The requests of a run *)

Lemma shaped_events evs :
  Forall shaped_event evs →
  Forall program_request (calls evs) ∧ Forall program_attempt (sends evs).
Proof.
  induction 1 as [|ev evs Hev _ [IHc IHs]]; [by split|].
  destruct ev; try done.
  - split; [by constructor | done].
  - split; [done | by constructor].
Qed.

Section requests.
Context `{Env}.

(** Only the network stage issues requests. *)
Lemma main_calls args w : calls (main args w).1.2 = calls (pipeline args w).1.2.
Proof.
  rewrite main_run. destruct (pipeline args w) as [[w1 evs] [pmids|e]].
  - pose proof (output_calls args pmids w1) as Hout.
    destruct (output args pmids w1) as [[w2 evs2] res2]. simpl in *.
    by rewrite calls_app, Hout, app_nil_r.
  - destruct e; simpl; rewrite ?calls_app, ?app_nil_r; done.
Qed.

(** The requests of the filter are export requests with its concepts. *)
Lemma pubtator_has_concept_calls pmids concepts page w rq :
  rq ∈ calls (pubtator_has_concept pmids concepts page w).1.2 →
  ∃ batch, rq = export_request concepts batch.
Proof.
  unfold pubtator_has_concept. rewrite bind_run. unfold lift.
  destruct (Py.range 0 (Py.len pmids) page) as [starts|e]; [|by intros ?%elem_of_nil].
  destruct (for_each _ _ _ _) as [[w2 ev2] res2] eqn:Hloop. simpl.
  apply pubtator_loop_calls in Hloop as (k & _ & -> & _).
  intros (batch & -> & _)%list_elem_of_fmap. by exists batch.
Qed.

(** A request that [main] sends to the annotation service comes from the
    filter, which [main] has called with the normalized concepts. *)
Lemma main_export_calls args w rq :
  rq ∈ calls (main args w).1.2 → rq_url rq = PT_EXPORT →
  Py.strip (concepts args) ≠ "" ∧
  ∃ batch, rq = export_request (normalize_concepts (concepts args)) batch.
Proof.
  rewrite main_calls. unfold pipeline. rewrite bind_run. intros Hrq Hurl.
  destruct (esearch_all_pmids _ _ _) as [[w1 ev1] res1] eqn:Hfound.
  assert (rq ∉ calls ev1) as Hsearch.
  { apply spec_esearch_all_pmids in Hfound as [Hevs _]. intros Hin.
    assert (Forall (λ rq, rq_url rq = EUTILS) (calls ev1)) as Hcalls.
    { apply calls_Forall. eapply Forall_impl; [done|]. by intros ev [_ ?]. }
    eapply Forall_forall in Hcalls; [|done]. by rewrite Hurl in Hcalls. }
  destruct res1 as [found|e]; [|done].
  destruct (Py.strip (concepts args)) as [|c s] eqn:Hstrip; simpl in Hrq;
    [by rewrite app_nil_r in Hrq|].
  split; [done|]. rewrite bind_run in Hrq.
  pose proof (pubtator_has_concept_calls found (normalize_concepts (concepts args)) 1000 w1 rq)
    as Hfilter.
  destruct (pubtator_has_concept _ _ _ _) as [[w2 ev2] [subset|e]]; simpl in *.
  - unfold iter_set in Hrq. rewrite bind_run in Hrq. simpl in Hrq.
    destruct (Py.sorted int_of_id _) as [out|e]; simpl in Hrq;
      rewrite ?app_nil_r, calls_app, elem_of_app in Hrq; destruct Hrq; auto; done.
  - rewrite calls_app, elem_of_app in Hrq. destruct Hrq; auto; done.
Qed.

(** C6: [" disease , chemical ,"] is normalized to [["disease";
    "chemical"]]: the value is split on commas, every piece trimmed and
    the empty ones dropped, so that what is left are pieces that are not
    empty, have no white space at either end and contain no comma. This
    list is what [main] hands to the filter: every request to the
    annotation service carries it. With an empty, absent or blank value the
    [try] block is the collector alone, and no request goes to the
    annotation service. *)
Theorem concepts_normalization args w :
  normalize_concepts " disease , chemical ," = ["disease"; "chemical"] ∧
  (∀ s, normalize_concepts s = filter (λ c, c ≠ "") (Py.strip <$> Py.split "," s)) ∧
  (∀ s, Forall (λ c, c ≠ "" ∧ Py.strip c = c ∧ free_of "," c) (normalize_concepts s)) ∧
  (∀ rq, rq ∈ calls (main args w).1.2 → rq_url rq = PT_EXPORT →
     Py.strip (concepts args) ≠ "" ∧
     ∃ batch,
       rq = get_request session PT_EXPORT
              (export_params batch (normalize_concepts (concepts args))) 120) ∧
  (Py.strip (concepts args) = "" →
     pipeline args w = esearch_all_pmids (keyword args) 10000 w ∧
     Forall (λ rq, rq_url rq ≠ PT_EXPORT) (calls (main args w).1.2)).
Proof.
  split_and!; [done | apply normalize_concepts_filter | apply normalize_concepts_pieces | |].
  - intros rq Hrq Hurl. exact (main_export_calls args w rq Hrq Hurl).
  - intros Hblank. split; [by apply pipeline_unfiltered|].
    apply Forall_forall. intros rq Hrq Hurl.
    by destruct (main_export_calls args w rq Hrq Hurl) as [? _].
Qed.

(** Every concept in a request to the annotation service is not empty, has
    no white space at either end and contains no comma; when there is one,
    splitting the ["concepts"] parameter of the request on commas gives the
    concepts back. *)
Theorem main_concepts_clean args w rq :
  rq ∈ calls (main args w).1.2 → rq_url rq = PT_EXPORT →
  ∃ cs, get_param "concepts" rq = Some (PStr (Py.join "," cs)) ∧
    cs = normalize_concepts (concepts args) ∧
    Forall (λ c, c ≠ "" ∧ Py.strip c = c ∧ free_of "," c) cs ∧
    (cs ≠ [] → Py.split "," (Py.join "," cs) = cs).
Proof.
  intros Hrq Hurl. destruct (main_export_calls args w rq Hrq Hurl) as [_ [batch ->]].
  exists (normalize_concepts (concepts args)).
  pose proof (normalize_concepts_pieces (concepts args)) as Hclean.
  split_and!; [done.. |].
  intros Hne. apply split_join; [done|].
  eapply Forall_impl; [exact Hclean|]. by intros c (_ & _ & ?).
Qed.

Lemma spec_shaped_get {B} url params timeout (k : Response → IO B) (Q : B → Prop) :
  program_request (get_request session url params timeout) →
  (∀ r, spec shaped_event Q (λ _, True) (k r)) →
  spec shaped_event Q (λ _, True)
    (r ← Session_get session url params timeout; raise_for_status r;; k r).
Proof.
  intros Hrq Hk. eapply spec_bind.
  { apply spec_Session_request; try done.
    intros ev Hev. destruct Hrq as (_ & Hheaders & Htimeout).
    destruct ev; simpl in *; try done; destruct Hev as (Hh & Ht & Hm);
      (split_and!; [by apply Hm | by rewrite Hh | rewrite Ht; tauto]). }
  intros r _. eapply spec_bind; [|intros _ _; apply Hk].
  by apply spec_raise_for_status.
Qed.

Lemma spec_shaped_json {B} r (k : Body → IO B) (Q : B → Prop) :
  (∀ body, spec shaped_event Q (λ _, True) (k body)) →
  spec shaped_event Q (λ _, True) (body ← Response_json r; k body).
Proof.
  intros Hk. eapply spec_bind; [|intros body _; apply Hk].
  by apply spec_Response_json.
Qed.

Lemma spec_shaped_lift {A B} (r : result A) (k : A → IO B) (Q : B → Prop) :
  (∀ a, spec shaped_event Q (λ _, True) (k a)) →
  spec shaped_event Q (λ _, True) (a ← lift r; k a).
Proof.
  intros Hk. eapply spec_bind with (Q := λ _, True); [|intros a _; apply Hk].
  apply spec_lift. by destruct r.
Qed.

Lemma spec_shaped_esearch query chunk :
  spec shaped_event (λ _, True) (λ _, True) (esearch_all_pmids query chunk).
Proof.
  unfold esearch_all_pmids.
  apply spec_shaped_get; [by split_and!; [..|left]|]. intros r.
  apply spec_shaped_json. intros body.
  eapply spec_bind with (Q := λ _, True); [by apply spec_getitem|]. intros er _.
  eapply spec_bind with (Q := λ _, True); [by apply spec_getitem|]. intros c _.
  apply spec_shaped_lift. intros count. apply spec_shaped_lift. intros starts.
  eapply spec_bind with (Q := λ _, True).
  - apply spec_for_each; [|done]. intros pmids start _ _. unfold esearch_window.
    apply spec_shaped_get; [by split_and!; [..|left]|]. intros r'.
    apply spec_shaped_json. intros body'.
    eapply spec_bind with (Q := λ _, True); [by apply spec_getitem|]. intros er' _.
    eapply spec_bind with (Q := λ _, True); [by apply spec_emit|]. intros _ _.
    by apply spec_mret.
  - intros pmids _. eapply spec_bind; [apply spec_iter_set|]. intros unique _.
    apply spec_lift. by destruct (Py.sorted _ _).
Qed.

Lemma spec_shaped_pubtator pmids concepts page :
  spec shaped_event (λ _, True) (λ _, True) (pubtator_has_concept pmids concepts page).
Proof.
  unfold pubtator_has_concept. apply spec_shaped_lift. intros starts.
  apply spec_for_each; [|done]. intros keep i _ _. unfold pubtator_batch.
  apply spec_shaped_get; [by split_and!; [..|right]|]. intros r.
  apply spec_shaped_json. intros data.
  eapply spec_bind with (Q := λ _, True); [by apply spec_emit|]. intros _ _.
  by apply spec_mret.
Qed.

Lemma spec_shaped_pipeline args :
  spec shaped_event (λ _, True) (λ _, True) (pipeline args).
Proof.
  unfold pipeline. eapply spec_bind with (Q := λ _, True); [apply spec_shaped_esearch|].
  intros pmids _. destruct (Py.truthy _); [|by apply spec_mret].
  eapply spec_bind with (Q := λ _, True); [apply spec_shaped_pubtator|].
  intros subset _. eapply spec_bind; [apply spec_iter_set|]. intros ids _.
  apply spec_shaped_lift. intros out. by apply spec_mret.
Qed.

(** Whatever the arguments and the answers, every request of a run is a GET
    with the [User-Agent] of the session, to the search endpoint with a
    timeout of 60 seconds or to the export endpoint with a timeout of 120
    seconds; every attempt the session makes for it, at the endpoint or at
    the target of a redirect, is a GET with that header and one of these
    timeouts. *)
Theorem main_requests_shaped args w :
  Forall program_request (calls (main args w).1.2) ∧
  Forall program_attempt (sends (main args w).1.2).
Proof.
  apply shaped_events. rewrite main_run.
  destruct (pipeline args w) as [[w1 evs] res] eqn:Hrun.
  apply spec_shaped_pipeline in Hrun as [Hevs _].
  destruct res as [pmids|e].
  - rewrite output_run.
    destruct (Py.truthy (out args)); [destruct (open_w w1 (out args)).2|]; simpl;
      rewrite ?app_nil_r; try done;
      (apply Forall_app; split; [done|]); apply Forall_app; split;
      try (by repeat constructor); by apply Forall_fmap, Forall_true.
  - destruct e; simpl; rewrite ?app_nil_r; try done;
      apply Forall_app; split; try done; by repeat constructor.
Qed.
End requests.

Lemma concepts_normalization_witness :
  let args := {| keyword := "alkaptonuria"; concepts := " disease , chemical ,"; out := "" |} in
  calls (@main both_services args 0%nat).1.2 =
    [get_request session EUTILS (count_params "alkaptonuria") 60;
     get_request session EUTILS (window_params "alkaptonuria" 10000 0) 60;
     get_request session PT_EXPORT (export_params ["9"; "10"] ["disease"; "chemical"]) 120] ∧
  ∃ batch,
    get_request session PT_EXPORT (export_params ["9"; "10"] ["disease"; "chemical"]) 120 =
    get_request session PT_EXPORT (export_params batch (normalize_concepts (concepts args))) 120.
Proof.
  intros args. split; [reflexivity|].
  destruct (@concepts_normalization both_services args 0%nat) as (_ & _ & _ & Hcalls & _).
  apply Hcalls; [|reflexivity].
  change (calls (@main both_services args 0%nat).1.2)
    with [get_request session EUTILS (count_params "alkaptonuria") 60;
          get_request session EUTILS (window_params "alkaptonuria" 10000 0) 60;
          get_request session PT_EXPORT (export_params ["9"; "10"] ["disease"; "chemical"]) 120].
  do 2 right. left.
Defined.

Lemma main_concepts_clean_witness :
  let args := {| keyword := "alkaptonuria"; concepts := " disease , chemical ,"; out := "" |} in
  let rq := get_request session PT_EXPORT (export_params ["9"; "10"] ["disease"; "chemical"]) 120 in
  rq ∈ calls (@main both_services args 0%nat).1.2 ∧
  ∃ cs, get_param "concepts" rq = Some (PStr (Py.join "," cs)) ∧
    cs = normalize_concepts (concepts args) ∧
    Forall (λ c, c ≠ "" ∧ Py.strip c = c ∧ free_of "," c) cs ∧
    (cs ≠ [] → Py.split "," (Py.join "," cs) = cs).
Proof.
  intros args rq.
  assert (rq ∈ calls (@main both_services args 0%nat).1.2) as Hrq.
  { change (calls (@main both_services args 0%nat).1.2)
      with [get_request session EUTILS (count_params "alkaptonuria") 60;
            get_request session EUTILS (window_params "alkaptonuria" 10000 0) 60; rq].
    do 2 right. left. }
  split; [exact Hrq|].
  exact (@main_concepts_clean both_services args 0%nat rq Hrq eq_refl).
Defined.
